(** * La Ciola leaderboard API: validation, abuse guard and ranking

    A shallow embedding of [src/index.ts] (the Hono / D1 worker) and of the
    two tables declared by the schema, followed by the properties of the
    validation unit, of the rate limiter, of score progression and of the
    two read endpoints.

    Conventions of the embedding:
    - a JavaScript string is a [string] whose characters are its code
      units; the model covers the code units 0..255 (Latin-1), on which
      [String.prototype.trim] and [toLowerCase] are written out in full;
    - a JavaScript [number] is a rational or one of the three special
      values; every finite double is a rational, so the model covers all
      of them;
    - [Date.now()] and [Math.random()] are read from an explicit
      environment record;
    - a table is the list of its rows in rowid order; a statement is a pure
      function on the list, and an INSERT that breaks the UNIQUE constraint
      is a store fault ([None]). *)

From Stdlib Require Import ZArith QArith Qround List Bool Ascii String Lia.
From Stdlib Require Import Sorting.Permutation Sorting.Sorted.
From Stdlib Require Import Numbers.DecimalString.
Import ListNotations.

Open Scope string_scope.
Open Scope Z_scope.

(** ** JavaScript values *)

Module Js.

(** The JavaScript [number] type. *)
Inductive number : Type :=
| Finite (q : Q)
| NaN
| PosInfinity
| NegInfinity.

(** The values a JSON body field can hold ([JObject] stands for any object
    or array; [JUndefined] for a missing field). *)
Inductive value : Type :=
| JUndefined
| JNull
| JBool (b : bool)
| JNumber (n : number)
| JString (s : string)
| JObject.

(** [n > 0] *)
Definition gt_zero (n : number) : bool :=
  match n with
  | Finite q => 0 <? Qnum q
  | PosInfinity => true
  | NaN | NegInfinity => false
  end.

(** [n <= m] for an integer literal [m] *)
Definition le_int (n : number) (m : Z) : bool :=
  match n with
  | Finite q => Qle_bool q (inject_Z m)
  | NegInfinity => true
  | NaN | PosInfinity => false
  end.

(** [Number.isInteger(n)] *)
Definition isInteger (n : number) : bool :=
  match n with
  | Finite q => (Qnum q mod Zpos (Qden q)) =? 0
  | _ => false
  end.

(** The integer a number denotes once [isInteger] holds. *)
Definition to_Z (n : number) : Z :=
  match n with
  | Finite q => Qfloor q
  | _ => 0
  end.

(** ToBoolean *)
Definition truthy (v : value) : bool :=
  match v with
  | JUndefined | JNull => false
  | JBool b => b
  | JNumber (Finite q) => negb (Qnum q =? 0)
  | JNumber NaN => false
  | JNumber _ => true
  | JString s => negb (s =? "")%string
  | JObject => true
  end.

(** [a || b] on optional strings, as in [sessionId || generateSessionId()]. *)
Definition or_else (a : option string) (b : string) : string :=
  match a with
  | Some s => if (s =? "")%string then b else s
  | None => b
  end.

Definition code (c : ascii) : N := N_of_ascii c.

Definition between (lo hi : N) (c : ascii) : bool :=
  ((lo <=? code c) && (code c <=? hi))%N.

(** WhiteSpace and LineTerminator code units below 256:
    TAB, LF, VT, FF, CR, SP and NBSP. *)
Definition isWhiteSpace (c : ascii) : bool :=
  (between 9 13 c || (code c =? 32) || (code c =? 160))%N.

Fixpoint trimStart (s : string) : string :=
  match s with
  | String c r => if isWhiteSpace c then trimStart r else s
  | EmptyString => EmptyString
  end.

Fixpoint trimEnd (s : string) : string :=
  match s with
  | String c r =>
      match trimEnd r with
      | EmptyString => if isWhiteSpace c then EmptyString else String c EmptyString
      | r' => String c r'
      end
  | EmptyString => EmptyString
  end.

(** [String.prototype.trim] *)
Definition trim (s : string) : string := trimEnd (trimStart s).

(** Lower-casing of one code unit: A-Z, and the Latin-1 capitals
    U+00C0..U+00DE except the multiplication sign U+00D7. *)
Definition lowerChar (c : ascii) : ascii :=
  if (between 65 90 c || (between 192 222 c && negb (code c =? 215)))%N
  then ascii_of_N (code c + 32)
  else c.

(** [String.prototype.toLowerCase] *)
Fixpoint toLowerCase (s : string) : string :=
  match s with
  | String c r => String (lowerChar c) (toLowerCase r)
  | EmptyString => EmptyString
  end.

(** Digit of [Number.prototype.toString(36)]. *)
Definition digit36 (d : Z) : ascii :=
  if d <? 10 then ascii_of_N (Z.to_N (48 + d)) else ascii_of_N (Z.to_N (87 + d)).

Fixpoint digits36 (fuel : nat) (n : Z) (acc : string) : string :=
  match fuel with
  | O => acc
  | S fuel' =>
      let acc' := String (digit36 (n mod 36)) acc in
      if n / 36 =? 0 then acc' else digits36 fuel' (n / 36) acc'
  end.

(** [n.toString(36)] for an integer [n]. *)
Definition toString36 (n : Z) : string :=
  let render m := digits36 (S (Z.to_nat (Z.log2 m))) m EmptyString in
  if n <? 0 then String "-" (render (- n)) else render n.

(** Decimal rendering of an integer inside a template literal, as
    JavaScript prints it for magnitudes below 10^21 (from there on it
    switches to exponent form); the scores the worker stores are at most
    3600. *)
Definition toString10 (n : Z) : string :=
  NilZero.string_of_int (Z.to_int n).

(** [s.substr(start, len)] for non-negative arguments. *)
Definition substr (start len : nat) (s : string) : string :=
  substring start len s.

End Js.

(** ** Validation unit *)

(** One character of the class [[a-zA-Z0-9_]]. *)
Definition isNameChar (c : ascii) : bool :=
  (Js.between 97 122 c || Js.between 65 90 c || Js.between 48 57 c
   || (Js.code c =? 95))%N.

Fixpoint allNameChars (s : string) : bool :=
  match s with
  | String c r => isNameChar c && allNameChars r
  | EmptyString => true
  end.

(** [/^[a-zA-Z0-9_]{3,16}$/.test(name)]: without the [m] flag the anchors
    match only at the two ends of the input. *)
Definition isValidName (name : string) : bool :=
  (3 <=? String.length name)%nat && (String.length name <=? 16)%nat
  && allNameChars name.

Definition MAX_SCORE : Z := 3600.

Definition isValidScore (score : Js.number) : bool :=
  Js.gt_zero score && Js.le_int score MAX_SCORE && Js.isInteger score.

(** The same function in the Bun / Elysia server of the repository root,
    whose comment reads "Just check if it's a positive integer". *)
Module Bun.
Definition isValidScore (score : Js.number) : bool :=
  Js.gt_zero score && Js.isInteger score.
End Bun.

(** ** Persistent store *)

(** A row of table [leaderboard] (the [id] column is the position in the
    list). *)
Record LeaderboardEntry : Type := mkEntry {
  name : string;
  score : Z;
  timestamp : Z
}.

(** A row of table [player_activity]. *)
Record PlayerActivity : Type := mkActivity {
  playerKey : string;
  lastSubmission : Z;
  submissionCount : Z;
  firstSeen : Z;
  sessionId : string
}.

Record Database : Type := mkDb {
  leaderboard : list LeaderboardEntry;
  player_activity : list PlayerActivity
}.

Definition emptyDb : Database := mkDb [] [].

(** What one request reads from the outside world. *)
Record Env : Type := mkEnv {
  rateNow : Z;          (* Date.now() in checkRateLimit *)
  random36 : string;    (* Math.random().toString(36) *)
  tokenNow : Z;         (* Date.now() in generateSessionId *)
  stampNow : Z          (* Date.now() in the submit handler *)
}.

Module Sql.

(** [SELECT ... FROM player_activity WHERE name = ?] with [.first()] *)
Definition selectActivity (key : string) (t : list PlayerActivity)
  : option PlayerActivity :=
  find (fun r => (playerKey r =? key)%string) t.

(** [INSERT INTO player_activity ...]; [name] is UNIQUE. *)
Definition insertActivity (r : PlayerActivity) (t : list PlayerActivity)
  : option (list PlayerActivity) :=
  if existsb (fun r' => (playerKey r' =? playerKey r)%string) t
  then None
  else Some (t ++ [r])%list.

(** [UPDATE player_activity SET last_submission = ?,
     submission_count = submission_count + 1 WHERE name = ?] *)
Definition touchActivity (now : Z) (key : string) (t : list PlayerActivity)
  : list PlayerActivity :=
  map (fun r =>
         if (playerKey r =? key)%string
         then mkActivity (playerKey r) now (submissionCount r + 1)
                         (firstSeen r) (sessionId r)
         else r) t.

(** [SELECT ... FROM leaderboard WHERE name = ?] with [.first()] *)
Definition selectEntry (key : string) (t : list LeaderboardEntry)
  : option LeaderboardEntry :=
  find (fun r => (name r =? key)%string) t.

(** [UPDATE leaderboard SET score = ?, timestamp = ? WHERE name = ?] *)
Definition updateEntry (s ts : Z) (key : string) (t : list LeaderboardEntry)
  : list LeaderboardEntry :=
  map (fun r => if (name r =? key)%string then mkEntry (name r) s ts else r) t.

(** [INSERT INTO leaderboard (name, score, timestamp) VALUES (?, ?, ?)];
    [name] is UNIQUE. *)
Definition insertEntry (r : LeaderboardEntry) (t : list LeaderboardEntry)
  : option (list LeaderboardEntry) :=
  if existsb (fun r' => (name r' =? name r)%string) t
  then None
  else Some (t ++ [r])%list.

(** Insertion of one row into a list already in descending score order;
    the row goes before the first row whose score is not greater. *)
Fixpoint placeDesc (x : LeaderboardEntry) (l : list LeaderboardEntry)
  : list LeaderboardEntry :=
  match l with
  | [] => [x]
  | y :: l' => if score x <? score y then y :: placeDesc x l' else x :: l
  end.

(** [ORDER BY score DESC]; rows of equal score keep their rowid order. *)
Definition orderByScoreDesc (t : list LeaderboardEntry)
  : list LeaderboardEntry :=
  fold_right placeDesc [] t.

(** [ROW_NUMBER() OVER (...)] paired with each row, counting from [k]. *)
Fixpoint rowNumber (k : Z) (l : list LeaderboardEntry)
  : list (Z * LeaderboardEntry) :=
  match l with
  | [] => []
  | r :: l' => (k, r) :: rowNumber (k + 1) l'
  end.

End Sql.

(** ** Abuse guard *)

Definition generateSessionId (env : Env) : string :=
  Js.substr 2 9 (random36 env) ++ Js.toString36 (tokenNow env).

Record RateLimit : Type := mkRate {
  allowed : bool;
  reason : option string
}.

Definition cooldownReason : string := "Aspetta almeno 30 secondi tra i tentativi".
Definition quotaReason : string := "Troppi tentativi oggi. Riprova domani.".

(** [x < y] on rationals *)
Definition Qlt_bool (x y : Q) : bool := negb (Qle_bool y x).

(** [(now - firstSeen) / (1000 * 60 * 60 * 24)] *)
Definition daysSinceFirst (now first : Z) : Q :=
  (inject_Z (now - first) / inject_Z (1000 * 60 * 60 * 24))%Q.

Definition checkRateLimit (db : Database) (env : Env) (playerName : string)
  (sid : option string) : option (Database * RateLimit) :=
  let now := rateNow env in
  let key := Js.toLowerCase playerName in
  match Sql.selectActivity key (player_activity db) with
  | None =>
      match Sql.insertActivity
              (mkActivity key now 1 now (Js.or_else sid (generateSessionId env)))
              (player_activity db) with
      | Some t => Some (mkDb (leaderboard db) t, mkRate true None)
      | None => None
      end
  | Some activity =>
      if now - lastSubmission activity <? 30000 then
        Some (db, mkRate false (Some cooldownReason))
      else if Qlt_bool (daysSinceFirst now (firstSeen activity)) 1
              && (50 <=? submissionCount activity) then
        Some (db, mkRate false (Some quotaReason))
      else
        Some (mkDb (leaderboard db)
                   (Sql.touchActivity now key (player_activity db)),
              mkRate true None)
  end.

Record Progression : Type := mkProg {
  valid : bool;
  progReason : option string
}.

Definition recordReason (best : Z) : string :=
  "Devi superare il tuo record di " ++ Js.toString10 best ++ " punti".

Definition validateScoreProgression (db : Database) (playerName : string)
  (newScore : Z) : Progression :=
  let key := Js.toLowerCase playerName in
  match Sql.selectEntry key (leaderboard db) with
  | Some existingEntry =>
      if newScore <=? score existingEntry
      then mkProg false (Some (recordReason (score existingEntry)))
      else mkProg true None
  | None => mkProg true None
  end.

(** ** Leaderboard service *)

(** The request body under the type the handler declares for it:
    [sessionId?: string].  [name] and [score] are kept as JSON values
    because the handler checks them itself; the body with an unchecked
    [sessionId] is [RawBody] further down. *)
Record SubmitBody : Type := mkBody {
  bodyName : Js.value;
  bodyScore : Js.value;
  bodySessionId : option string
}.

Inductive SubmitResponse : Type :=
| Rejected (status : Z) (error : string)
| Accepted (message : string).

Definition nameError : string :=
  "Nome non valido! Usa 3-16 caratteri (lettere, numeri, _)".
Definition scoreError : string := "Punteggio non valido o sospetto".
Definition savedMessage : string := "Punteggio salvato!".

(** [!name || typeof name !== "string" || !isValidName(name.trim())] *)
Definition nameRejected (v : Js.value) : bool :=
  negb (Js.truthy v)
  || match v with
     | Js.JString s => negb (isValidName (Js.trim s))
     | _ => true
     end.

(** [!score || typeof score !== "number" || !isValidScore(score)] *)
Definition scoreRejected (v : Js.value) : bool :=
  negb (Js.truthy v)
  || match v with
     | Js.JNumber n => negb (isValidScore n)
     | _ => true
     end.

Definition asString (v : Js.value) : string :=
  match v with Js.JString s => s | _ => "" end.

Definition asNumber (v : Js.value) : Js.number :=
  match v with Js.JNumber n => n | _ => Js.NaN end.

(** [reason || fallback] *)
Definition reasonOr (r : option string) (fallback : string) : string :=
  Js.or_else r fallback.

(** [app.post("/api/submit-score")] *)
Definition submitScore (db : Database) (env : Env) (body : SubmitBody)
  : option (Database * SubmitResponse) :=
  if nameRejected (bodyName body) then Some (db, Rejected 400 nameError)
  else if scoreRejected (bodyScore body) then Some (db, Rejected 400 scoreError)
  else
    let playerName := Js.trim (asString (bodyName body)) in
    let newScore := Js.to_Z (asNumber (bodyScore body)) in
    match checkRateLimit db env playerName (bodySessionId body) with
    | None => None
    | Some (db1, rateLimitCheck) =>
        if negb (allowed rateLimitCheck) then
          Some (db1, Rejected 429
                       (reasonOr (reason rateLimitCheck) "Rate limit exceeded"))
        else
          let progressionCheck := validateScoreProgression db1 playerName newScore in
          if negb (valid progressionCheck) then
            Some (db1, Rejected 400
                         (reasonOr (progReason progressionCheck)
                                   "Score progression invalid"))
          else
            let key := Js.toLowerCase playerName in
            match Sql.selectEntry key (leaderboard db1) with
            | Some _ =>
                Some (mkDb (Sql.updateEntry newScore (stampNow env) key
                                            (leaderboard db1))
                           (player_activity db1),
                      Accepted savedMessage)
            | None =>
                match Sql.insertEntry (mkEntry key newScore (stampNow env))
                                      (leaderboard db1) with
                | Some t => Some (mkDb t (player_activity db1),
                                  Accepted savedMessage)
                | None => None
                end
            end
    end.

(** [app.get("/api/leaderboard")]: the [data] field of the answer. *)
Definition getTopScores (db : Database) : list LeaderboardEntry :=
  firstn 10 (Sql.orderByScoreDesc (leaderboard db)).

Record RankResponse : Type := mkRank {
  rank : option Z;
  totalPlayers : Z
}.

(** The window query of the rank endpoint: each row of the ordered table
    with its row number and the row count, filtered by name, first row. *)
Definition rankQuery (key : string) (t : list LeaderboardEntry)
  : option (Z * Z) :=
  let total := Z.of_nat (List.length t) in
  match find (fun p => (name (snd p) =? key)%string)
             (Sql.rowNumber 1 (Sql.orderByScoreDesc t)) with
  | Some (k, _) => Some (k, total)
  | None => None
  end.

(** [app.get("/api/rank/:name")] *)
Definition getRank (db : Database) (nm : string) : RankResponse :=
  let key := Js.toLowerCase nm in
  match rankQuery key (leaderboard db) with
  | Some (rk, total) => mkRank (Some rk) total
  | None => mkRank None 0
  end.

(** Store states the service can be in: the empty tables, then whatever a
    submission leaves (the two read endpoints only run SELECTs). *)
Inductive reachable : Database -> Prop :=
| reach_empty : reachable emptyDb
| reach_submit db env body db' resp :
    reachable db ->
    submitScore db env body = Some (db', resp) ->
    reachable db'.

(** A sequence of submissions, in order. *)
Fixpoint submitAll (db : Database) (reqs : list (Env * SubmitBody))
  : option Database :=
  match reqs with
  | [] => Some db
  | (env, body) :: rest =>
      match submitScore db env body with
      | Some (db', _) => submitAll db' rest
      | None => None
      end
  end.

(** The score stored for a key, if any. *)
Definition storedScore (db : Database) (key : string) : option Z :=
  option_map score (Sql.selectEntry key (leaderboard db)).

(** ** Predicates used by the statements *)

(** The character class of the format rule, by code unit. *)
Definition inNameClass (c : ascii) : Prop :=
  (97 <= Js.code c <= 122 \/ 65 <= Js.code c <= 90
   \/ 48 <= Js.code c <= 57 \/ Js.code c = 95)%N.

(** A full match of [[A-Za-z0-9_]{3,16}]. *)
Definition fullMatch (s : string) : Prop :=
  (3 <= String.length s <= 16)%nat
  /\ Forall inNameClass (list_ascii_of_string s).

(** A string made of white space only. *)
Definition blank (s : string) : Prop :=
  Forall (fun c => Js.isWhiteSpace c = true) (list_ascii_of_string s).

(** The number [n] is the integer [z]. *)
Definition isInt (n : Js.number) (z : Z) : Prop :=
  match n with
  | Js.Finite q => q == inject_Z z
  | _ => False
  end.

(** The row an allowed check leaves for a player already known. *)
Definition touched (now : Z) (a : PlayerActivity) : PlayerActivity :=
  mkActivity (playerKey a) now (submissionCount a + 1) (firstSeen a) (sessionId a).

(** Descending score order between two rows. *)
Definition scoreGe (a b : LeaderboardEntry) : Prop := score b <= score a.

(** The player name and the score a submission carries past the two
    format gates. *)
Definition submittedKey (body : SubmitBody) : string :=
  Js.toLowerCase (Js.trim (asString (bodyName body))).

Definition submittedScore (body : SubmitBody) : Z :=
  Js.to_Z (asNumber (bodyScore body)).

(** The outcomes of a submission, gate by gate. *)
Inductive SubmitCase (db : Database) (env : Env) (body : SubmitBody)
  : Database -> SubmitResponse -> Prop :=
| case_name :
    nameRejected (bodyName body) = true ->
    SubmitCase db env body db (Rejected 400 nameError)
| case_score :
    nameRejected (bodyName body) = false ->
    scoreRejected (bodyScore body) = true ->
    SubmitCase db env body db (Rejected 400 scoreError)
| case_rate res msg :
    nameRejected (bodyName body) = false ->
    scoreRejected (bodyScore body) = false ->
    checkRateLimit db env (Js.trim (asString (bodyName body)))
                   (bodySessionId body) = Some (db, res) ->
    allowed res = false ->
    reason res = Some msg ->
    msg = cooldownReason \/ msg = quotaReason ->
    SubmitCase db env body db (Rejected 429 msg)
| case_progression db1 res e :
    nameRejected (bodyName body) = false ->
    scoreRejected (bodyScore body) = false ->
    checkRateLimit db env (Js.trim (asString (bodyName body)))
                   (bodySessionId body) = Some (db1, res) ->
    allowed res = true ->
    leaderboard db1 = leaderboard db ->
    Sql.selectEntry (submittedKey body) (leaderboard db) = Some e ->
    submittedScore body <= score e ->
    SubmitCase db env body db1 (Rejected 400 (recordReason (score e)))
| case_update db1 res e :
    nameRejected (bodyName body) = false ->
    scoreRejected (bodyScore body) = false ->
    checkRateLimit db env (Js.trim (asString (bodyName body)))
                   (bodySessionId body) = Some (db1, res) ->
    allowed res = true ->
    leaderboard db1 = leaderboard db ->
    Sql.selectEntry (submittedKey body) (leaderboard db) = Some e ->
    score e < submittedScore body ->
    SubmitCase db env body
      (mkDb (Sql.updateEntry (submittedScore body) (stampNow env)
                             (submittedKey body) (leaderboard db))
            (player_activity db1))
      (Accepted savedMessage)
| case_insert db1 res :
    nameRejected (bodyName body) = false ->
    scoreRejected (bodyScore body) = false ->
    checkRateLimit db env (Js.trim (asString (bodyName body)))
                   (bodySessionId body) = Some (db1, res) ->
    allowed res = true ->
    leaderboard db1 = leaderboard db ->
    Sql.selectEntry (submittedKey body) (leaderboard db) = None ->
    SubmitCase db env body
      (mkDb (leaderboard db
             ++ [mkEntry (submittedKey body) (submittedScore body)
                         (stampNow env)])%list
            (player_activity db1))
      (Accepted savedMessage).

(** A stored name is the lower-cased form of a well-formed name. *)
Definition foldedName (s : string) : Prop :=
  exists p, isValidName p = true /\ s = Js.toLowerCase p.

(** One player already on the board, first seen at time 1000000. *)
Definition boardAbc : Database :=
  mkDb [mkEntry "abc" 10 1000002] [mkActivity "abc" 1000000 1 1000000 "tok"].

Definition bodyOf (nm : string) (s : Z) (sid : option string) : SubmitBody :=
  mkBody (Js.JString nm) (Js.JNumber (Js.Finite (inject_Z s))) sid.

(** The activity row with its session id blanked. *)
Definition eraseSession (a : PlayerActivity) : PlayerActivity :=
  mkActivity (playerKey a) (lastSubmission a) (submissionCount a)
             (firstSeen a) "".

(** Two stores that differ at most in the session ids they hold. *)
Definition sameButSessions (d1 d2 : Database) : Prop :=
  leaderboard d1 = leaderboard d2
  /\ map eraseSession (player_activity d1)
     = map eraseSession (player_activity d2).

(** ** The Bun server ([index.ts] at the repository root)

    Its rate limiter is the worker's, statement for statement, but for the
    SELECT: the worker aliases the columns to the camel-case names the
    code reads, the Bun server selects them under their own names. *)

(** Arithmetic and comparison on [number] as the rate limiter uses them.
    Finite values are exact rationals. *)
Module JsNum.

(** [a - b] *)
Definition sub (a b : Js.number) : Js.number :=
  match a, b with
  | Js.NaN, _ | _, Js.NaN => Js.NaN
  | Js.Finite x, Js.Finite y => Js.Finite (x - y)
  | Js.Finite _, Js.PosInfinity => Js.NegInfinity
  | Js.Finite _, Js.NegInfinity => Js.PosInfinity
  | Js.PosInfinity, Js.PosInfinity => Js.NaN
  | Js.PosInfinity, _ => Js.PosInfinity
  | Js.NegInfinity, Js.NegInfinity => Js.NaN
  | Js.NegInfinity, _ => Js.NegInfinity
  end.

(** [a / d] for a positive integer constant [d] *)
Definition divConst (a : Js.number) (d : positive) : Js.number :=
  match a with
  | Js.Finite x => Js.Finite (x / inject_Z (Zpos d))
  | other => other
  end.

(** [a < m] for an integer constant [m] *)
Definition lt_int (a : Js.number) (m : Z) : bool :=
  match a with
  | Js.Finite x => Qlt_bool x (inject_Z m)
  | Js.NegInfinity => true
  | Js.NaN | Js.PosInfinity => false
  end.

(** [a >= m] for an integer constant [m] *)
Definition ge_int (a : Js.number) (m : Z) : bool :=
  match a with
  | Js.Finite x => Qle_bool (inject_Z m) x
  | Js.PosInfinity => true
  | Js.NaN | Js.NegInfinity => false
  end.

End JsNum.

(** The object a single-row SELECT returns: one property per selected
    column, under the column's name or its alias.  Only the integer
    columns are kept; the code never reads the text one. *)
Module RowObject.

Definition t : Type := list (string * Z).

(** [o.k] read as a number: a property that is not there is [undefined],
    which arithmetic and comparison turn into NaN. *)
Definition get (o : t) (k : string) : Js.number :=
  match find (fun kv => (fst kv =? k)%string) o with
  | Some (_, v) => Js.Finite (inject_Z v)
  | None => Js.NaN
  end.

End RowObject.

(** [SELECT last_submission as lastSubmission, submission_count as
    submissionCount, first_seen as firstSeen, ...] (worker) *)
Definition aliasedRow (a : PlayerActivity) : RowObject.t :=
  [("lastSubmission", lastSubmission a);
   ("submissionCount", submissionCount a);
   ("firstSeen", firstSeen a)].

(** The body of [checkRateLimit] over the object the SELECT returns. *)
Definition rateLimitOnRow (rowOf : PlayerActivity -> RowObject.t)
  (db : Database) (env : Env) (playerName : string) (sid : option string)
  : option (Database * RateLimit) :=
  let now := Js.Finite (inject_Z (rateNow env)) in
  let key := Js.toLowerCase playerName in
  match Sql.selectActivity key (player_activity db) with
  | None =>
      match Sql.insertActivity
              (mkActivity key (rateNow env) 1 (rateNow env)
                          (Js.or_else sid (generateSessionId env)))
              (player_activity db) with
      | Some t => Some (mkDb (leaderboard db) t, mkRate true None)
      | None => None
      end
  | Some row =>
      let activity := rowOf row in
      if JsNum.lt_int (JsNum.sub now (RowObject.get activity "lastSubmission"))
                      30000 then
        Some (db, mkRate false (Some cooldownReason))
      else
        let daysSinceFirst :=
          JsNum.divConst (JsNum.sub now (RowObject.get activity "firstSeen"))
                         (1000 * 60 * 60 * 24) in
        if JsNum.lt_int daysSinceFirst 1
           && JsNum.ge_int (RowObject.get activity "submissionCount") 50 then
          Some (db, mkRate false (Some quotaReason))
        else
          Some (mkDb (leaderboard db)
                     (Sql.touchActivity (rateNow env) key (player_activity db)),
                mkRate true None)
  end.

Module BunApi.

(** [SELECT last_submission, submission_count, first_seen, session_id] *)
Definition selectedRow (a : PlayerActivity) : RowObject.t :=
  [("last_submission", lastSubmission a);
   ("submission_count", submissionCount a);
   ("first_seen", firstSeen a)].

Definition checkRateLimit : Database -> Env -> string -> option string
                            -> option (Database * RateLimit) :=
  rateLimitOnRow selectedRow.

(** One element of the admin listing. *)
Record ActivityView : Type := mkView {
  viewName : string;
  viewLastSubmission : Z;
  viewSubmissionCount : Z;
  viewFirstSeen : Z;
  viewSessionId : string;
  lastSubmissionAgo : Z
}.

(** Insertion into a list already in descending [last_submission] order. *)
Fixpoint placeRecent (x : PlayerActivity) (l : list PlayerActivity)
  : list PlayerActivity :=
  match l with
  | [] => [x]
  | y :: l' =>
      if lastSubmission x <? lastSubmission y then y :: placeRecent x l'
      else x :: l
  end.

(** [.get("/api/admin/activity")]: the [data] field, [now] being the
    [Date.now()] bound to the query. *)
Definition adminActivity (db : Database) (now : Z) : list ActivityView :=
  map (fun a => mkView (playerKey a) (lastSubmission a) (submissionCount a)
                       (firstSeen a) (sessionId a) (now - lastSubmission a))
      (fold_right placeRecent [] (player_activity db)).

End BunApi.

(** ** The submit handler on the body as it arrives

    [SubmitBody] above is the body under its declared type.  The handler
    checks [name] and [score] at run time but casts [sessionId]: whatever
    JSON value the field holds reaches [.bind(...)] of the INSERT on a
    player's first contact.  D1 binds strings and throws [D1_TYPE_ERROR]
    on an object or an array; the exception is not caught, so the request
    ends as a server error. *)

Record RawBody : Type := mkRaw {
  rawName : Js.value;
  rawScore : Js.value;
  rawSessionId : Js.value
}.

(** What the client gets: an answer of the handler, or the server error
    of an uncaught exception. *)
Inductive Reply : Type :=
| Answered (resp : SubmitResponse)
| Thrown.

(** The body of declared type as a raw body. *)
Definition rawOf (body : SubmitBody) : RawBody :=
  mkRaw (bodyName body) (bodyScore body)
        (match bodySessionId body with
         | Some s => Js.JString s
         | None => Js.JUndefined
         end).

Section Driver.

(** What binding a boolean or a number to a TEXT column gives: the text
    stored, or [None] when the driver refuses the value (the conversion
    is the driver's and SQLite's, not the repository's). *)
Variable scalarText : Js.value -> option string.

(** [sessionId || generateSessionId()] as [.bind] takes it: the text to
    store, or [None] when [.bind] throws. *)
Definition boundSessionId (hint : Js.value) (env : Env) : option string :=
  if Js.truthy hint then
    match hint with
    | Js.JString s => Some s
    | Js.JBool _ | Js.JNumber _ => scalarText hint
    | _ => None
    end
  else Some (generateSessionId env).

(** [checkRateLimit] with the unchecked hint; the store comes back also
    when a statement throws ([None]), as nothing was written then. *)
Definition checkRateLimitRaw (db : Database) (env : Env) (playerName : string)
  (hint : Js.value) : Database * option RateLimit :=
  let now := rateNow env in
  let key := Js.toLowerCase playerName in
  match Sql.selectActivity key (player_activity db) with
  | None =>
      match boundSessionId hint env with
      | None => (db, None)
      | Some text =>
          match Sql.insertActivity (mkActivity key now 1 now text)
                                   (player_activity db) with
          | Some t => (mkDb (leaderboard db) t, Some (mkRate true None))
          | None => (db, None)
          end
      end
  | Some activity =>
      if now - lastSubmission activity <? 30000 then
        (db, Some (mkRate false (Some cooldownReason)))
      else if Qlt_bool (daysSinceFirst now (firstSeen activity)) 1
              && (50 <=? submissionCount activity) then
        (db, Some (mkRate false (Some quotaReason)))
      else
        (mkDb (leaderboard db)
              (Sql.touchActivity now key (player_activity db)),
         Some (mkRate true None))
  end.

(** [app.post("/api/submit-score")] on a raw body. *)
Definition submitScoreRaw (db : Database) (env : Env) (raw : RawBody)
  : Database * Reply :=
  if nameRejected (rawName raw) then (db, Answered (Rejected 400 nameError))
  else if scoreRejected (rawScore raw) then
    (db, Answered (Rejected 400 scoreError))
  else
    let playerName := Js.trim (asString (rawName raw)) in
    let newScore := Js.to_Z (asNumber (rawScore raw)) in
    match checkRateLimitRaw db env playerName (rawSessionId raw) with
    | (db1, None) => (db1, Thrown)
    | (db1, Some rateLimitCheck) =>
        if negb (allowed rateLimitCheck) then
          (db1, Answered (Rejected 429
                            (reasonOr (reason rateLimitCheck)
                                      "Rate limit exceeded")))
        else
          let progressionCheck := validateScoreProgression db1 playerName newScore in
          if negb (valid progressionCheck) then
            (db1, Answered (Rejected 400
                              (reasonOr (progReason progressionCheck)
                                        "Score progression invalid")))
          else
            let key := Js.toLowerCase playerName in
            match Sql.selectEntry key (leaderboard db1) with
            | Some _ =>
                (mkDb (Sql.updateEntry newScore (stampNow env) key
                                       (leaderboard db1))
                      (player_activity db1),
                 Answered (Accepted savedMessage))
            | None =>
                match Sql.insertEntry (mkEntry key newScore (stampNow env))
                                      (leaderboard db1) with
                | Some t => (mkDb t (player_activity db1),
                             Answered (Accepted savedMessage))
                | None => (db1, Thrown)
                end
            end
    end.

End Driver.


(** The typed answer as a reply. *)
Definition replyOf (db : Database) (r : option (Database * SubmitResponse))
  : Database * Reply :=
  match r with
  | Some (db', resp) => (db', Answered resp)
  | None => (db, Thrown)
  end.

(** ** More predicates used by the statements *)

(** Rows of the board that score more than [s], and at least [s]. *)
Definition countAbove (s : Z) (t : list LeaderboardEntry) : nat :=
  List.length (filter (fun e => s <? score e) t).

Definition countAtLeast (s : Z) (t : list LeaderboardEntry) : nat :=
  List.length (filter (fun e => s <=? score e) t).

(** An activity row whose count is paid for by cooldowns: every allowed
    check after the first came at least 30 s after the one before. *)
Definition paced (a : PlayerActivity) : Prop :=
  1 <= submissionCount a
  /\ 30000 * (submissionCount a - 1) <= lastSubmission a - firstSeen a.

(** An activity row that went past 50 checks only after its first day. *)
Definition withinQuota (a : PlayerActivity) : Prop :=
  submissionCount a <= 50 \/ 86400000 <= lastSubmission a - firstSeen a.

(** Descending order of last submission between two activity rows. *)
Definition recentGe (a b : PlayerActivity) : Prop :=
  lastSubmission b <= lastSubmission a.

(** A well-formed name in lower case. *)
Definition lowerName (s : string) : Prop :=
  isValidName s = true /\ Js.toLowerCase s = s.

(** What the service keeps true of the activity table. *)
Definition activityInv (t : list PlayerActivity) : Prop :=
  NoDup (map playerKey t)
  /\ Forall (fun a => lowerName (playerKey a) /\ paced a /\ withinQuota a
                      /\ sessionId a <> ""%string) t.

(** * Properties *)

(** ** Validation unit *)

Section NameFormat.

Lemma isNameChar_iff c : isNameChar c = true <-> inNameClass c.
Proof.
  unfold isNameChar, inNameClass, Js.between.
  rewrite !orb_true_iff, !andb_true_iff, !N.leb_le, N.eqb_eq. tauto.
Qed.

Lemma nameChar_not_space c : isNameChar c = true -> Js.isWhiteSpace c = false.
Proof.
  rewrite isNameChar_iff. unfold inNameClass, Js.isWhiteSpace, Js.between.
  intros H. rewrite !orb_false_iff, andb_false_iff, !N.leb_gt, !N.eqb_neq. lia.
Qed.

Lemma allNameChars_iff s :
  allNameChars s = true <-> Forall inNameClass (list_ascii_of_string s).
Proof.
  induction s as [|c s IH]; simpl.
  - split; auto.
  - rewrite andb_true_iff, IH, isNameChar_iff. split.
    + intros [? ?]. now constructor.
    + intros H. inversion H. auto.
Qed.

Lemma isValidName_iff s : isValidName s = true <-> fullMatch s.
Proof.
  unfold isValidName, fullMatch.
  rewrite !andb_true_iff, !Nat.leb_le, allNameChars_iff. tauto.
Qed.

Lemma trimStart_split s :
  exists l, s = (l ++ Js.trimStart s)%string /\ blank l.
Proof.
  induction s as [|c s [l [E B]]]; simpl.
  - exists ""%string. split; [reflexivity | constructor].
  - destruct (Js.isWhiteSpace c) eqn:W.
    + exists (String c l). split; [simpl; now rewrite <- E | now constructor].
    + exists ""%string. split; [reflexivity | constructor].
Qed.

Lemma trimEnd_split s :
  exists r, s = (Js.trimEnd s ++ r)%string /\ blank r.
Proof.
  induction s as [|c s [r [E B]]]; simpl.
  - exists ""%string. split; [reflexivity | constructor].
  - destruct (Js.trimEnd s) as [|d t] eqn:T.
    + simpl in E. subst r. destruct (Js.isWhiteSpace c) eqn:W.
      * exists (String c s). split; [reflexivity | now constructor].
      * exists s. split; [reflexivity | assumption].
    + exists r. split; [cbn [append]; f_equal; exact E | assumption].
Qed.

Lemma trimStart_blank l t :
  blank l -> Js.trimStart (l ++ t) = Js.trimStart t.
Proof.
  induction l as [|c l IH]; simpl; intros B; [reflexivity|].
  inversion B as [|? ? W B']; subst. rewrite W. auto.
Qed.

Lemma trimStart_all_blank r : blank r -> Js.trimStart r = ""%string.
Proof.
  induction r as [|c r IH]; simpl; intros B; [reflexivity|].
  inversion B as [|? ? W B']; subst. rewrite W. auto.
Qed.

Lemma trimEnd_blank r : blank r -> Js.trimEnd r = ""%string.
Proof.
  induction r as [|c r IH]; simpl; intros B; [reflexivity|].
  inversion B as [|? ? W B']; subst. now rewrite IH, W.
Qed.

Lemma trimEnd_app_blank t r :
  blank r -> Js.trimEnd (t ++ r) = Js.trimEnd t.
Proof.
  intros B. induction t as [|c t IH]; simpl.
  - now apply trimEnd_blank.
  - now rewrite IH.
Qed.

Lemma trimStart_name t : allNameChars t = true -> Js.trimStart t = t.
Proof.
  destruct t as [|c t]; simpl; [reflexivity|].
  rewrite andb_true_iff. intros [C _]. now rewrite (nameChar_not_space _ C).
Qed.

Lemma trimEnd_name t : allNameChars t = true -> Js.trimEnd t = t.
Proof.
  induction t as [|c t IH]; simpl; [reflexivity|].
  rewrite andb_true_iff. intros [C A]. rewrite (IH A).
  destruct t; [now rewrite (nameChar_not_space _ C) | reflexivity].
Qed.

(** Trimming a name wrapped in white space gives the name back. *)
Lemma trim_wrapped l t r :
  blank l -> blank r -> allNameChars t = true ->
  Js.trim (l ++ t ++ r) = t.
Proof.
  intros Bl Br A. unfold Js.trim.
  rewrite (trimStart_blank _ _ Bl).
  destruct t as [|c t].
  - simpl. now rewrite (trimStart_all_blank _ Br).
  - assert (S : Js.trimStart (String c t ++ r) = (String c t ++ r)%string).
    { simpl in *. apply andb_true_iff in A as [C _].
      now rewrite (nameChar_not_space _ C). }
    rewrite S, (trimEnd_app_blank _ _ Br). now apply trimEnd_name.
Qed.

(** What [trim] removes is white space on both sides. *)
Lemma trim_split s :
  exists l r, s = (l ++ Js.trim s ++ r)%string /\ blank l /\ blank r.
Proof.
  destruct (trimStart_split s) as [l [E Bl]].
  destruct (trimEnd_split (Js.trimStart s)) as [r [E' Br]].
  exists l, r. unfold Js.trim. now rewrite <- E', <- E.
Qed.

End NameFormat.

(** C8, as the code has it: [isValidName] is the bare full match and does
    not trim; the submit handler trims its argument first, so the check it
    applies accepts exactly the strings that are a name of 3 to 16
    characters of [[A-Za-z0-9_]] wrapped in white space. *)
Theorem isValidName_trimmed_by_caller (raw : string) :
  (isValidName raw = true <-> fullMatch raw)
  /\ (isValidName (Js.trim raw) = true <->
      exists l t r, raw = (l ++ t ++ r)%string
                    /\ blank l /\ blank r /\ fullMatch t)
  /\ nameRejected (Js.JString raw) = negb (isValidName (Js.trim raw)).
Proof.
  split; [apply isValidName_iff|]. split.
  - split.
    + intros V. destruct (trim_split raw) as [l [r [E [Bl Br]]]].
      exists l, (Js.trim raw), r. rewrite <- isValidName_iff. auto.
    + intros [l [t [r [E [Bl [Br M]]]]]]. subst raw.
      apply isValidName_iff in M.
      assert (A : allNameChars t = true).
      { unfold isValidName in M. now apply andb_true_iff in M as [_ A]. }
      now rewrite (trim_wrapped _ _ _ Bl Br A).
  - unfold nameRejected. simpl. destruct raw; reflexivity.
Qed.

(** C8, as the claim words it, fails: a name with a leading blank is
    rejected by [isValidName] although its trimmed form matches. *)
Lemma isValidName_does_not_trim :
  ~ (isValidName " abc" = true <-> fullMatch (Js.trim " abc")).
Proof.
  intros [_ H].
  assert (M : fullMatch (Js.trim " abc")) by (apply isValidName_iff; reflexivity).
  specialize (H M). discriminate H.
Qed.

Section ScoreBounds.

Lemma isInteger_iff n : Js.isInteger n = true <-> exists z, isInt n z.
Proof.
  destruct n as [[a b]| | |]; simpl;
    try (split; [discriminate | intros [z []]]).
  rewrite Z.eqb_eq. unfold Qeq; simpl. split.
  - intros H. exists (a / Zpos b).
    pose proof (Z.div_mod a (Zpos b)). nia.
  - intros [z H]. replace a with (z * Zpos b) by lia. apply Z.mod_mul. lia.
Qed.

Lemma gt_zero_int n z : isInt n z -> Js.gt_zero n = (0 <? z).
Proof.
  destruct n as [[a b]| | |]; simpl; try tauto. unfold Qeq; simpl. intros H.
  destruct (Z.ltb_spec 0 a), (Z.ltb_spec 0 z); try reflexivity; nia.
Qed.

Lemma le_int_int n z m : isInt n z -> Js.le_int n m = (z <=? m).
Proof.
  destruct n as [[a b]| | |]; simpl; try tauto. unfold Qeq; simpl. intros H.
  unfold Qle_bool; simpl.
  destruct (Z.leb_spec (a * 1) (m * Zpos b)), (Z.leb_spec z m);
    try reflexivity; nia.
Qed.

Lemma to_Z_int n z : isInt n z -> Js.to_Z n = z.
Proof.
  destruct n as [q| | |]; simpl; try tauto.
  intros H. rewrite H. apply Qfloor_Z.
Qed.

End ScoreBounds.

(** C2: a number is a valid score exactly when it is an integer [z] with
    [0 < z <= 3600], the bound being one unit per second for one hour. *)
Theorem isValidScore_iff (s : Js.number) :
  (isValidScore s = true <-> exists z, isInt s z /\ 0 < z <= MAX_SCORE)
  /\ MAX_SCORE = 1 * 60 * 60.
Proof.
  split; [|reflexivity]. unfold isValidScore. split.
  - rewrite !andb_true_iff. intros [[G L] I].
    apply isInteger_iff in I as [z I]. exists z. split; [assumption|].
    rewrite (gt_zero_int _ _ I) in G. rewrite (le_int_int _ _ _ I) in L.
    apply Z.ltb_lt in G. apply Z.leb_le in L. lia.
  - intros [z [I [G L]]].
    rewrite (gt_zero_int _ _ I), (le_int_int _ _ _ I).
    assert (Js.isInteger s = true) as -> by (apply isInteger_iff; eauto).
    apply Z.ltb_lt in G. apply Z.leb_le in L. now rewrite G, L.
Qed.

(** The Bun server drops the upper bound. *)
Lemma Bun_isValidScore_iff (s : Js.number) :
  Bun.isValidScore s = true <-> exists z, isInt s z /\ 0 < z.
Proof.
  unfold Bun.isValidScore. split.
  - rewrite andb_true_iff. intros [G I].
    apply isInteger_iff in I as [z I]. exists z. split; [assumption|].
    rewrite (gt_zero_int _ _ I) in G. now apply Z.ltb_lt in G.
  - intros [z [I G]]. rewrite (gt_zero_int _ _ I).
    assert (Js.isInteger s = true) as -> by (apply isInteger_iff; eauto).
    apply Z.ltb_lt in G. now rewrite G.
Qed.

Example Bun_accepts_3601 :
  Bun.isValidScore (Js.Finite (inject_Z 3601)) = true
  /\ isValidScore (Js.Finite (inject_Z 3601)) = false.
Proof. split; reflexivity. Qed.

(** ** Statements on a table *)

Section Find.

Context {A : Type} (p : A -> bool).

Lemma find_none_existsb l : find p l = None -> existsb p l = false.
Proof.
  induction l as [|x l IH]; simpl; [reflexivity|].
  destruct (p x); [discriminate | auto].
Qed.

Lemma find_app l l' :
  find p (l ++ l')%list
  = match find p l with Some x => Some x | None => find p l' end.
Proof.
  induction l as [|y l IH]; simpl; [reflexivity|].
  now destruct (p y).
Qed.

Lemma find_app_last l x :
  find p l = None -> p x = true -> find p (l ++ [x])%list = Some x.
Proof.
  intros N P. rewrite find_app, N. simpl. now rewrite P.
Qed.

Lemma find_map_same (f : A -> A) l :
  (forall x, p (f x) = p x) ->
  find p (map f l) = option_map f (find p l).
Proof.
  intros P. induction l as [|y l IH]; simpl; [reflexivity|].
  rewrite P. destruct (p y); [reflexivity | assumption].
Qed.

End Find.

Section StoreLemmas.

Lemma days_lt_one now first :
  Qlt_bool (daysSinceFirst now first) 1 = (now - first <? 86400000).
Proof.
  unfold Qlt_bool, daysSinceFirst, Qle_bool, Qdiv, Qmult, Qinv, inject_Z.
  simpl. destruct (Z.leb_spec 86400000 ((now - first) * 1)),
                  (Z.ltb_spec (now - first) 86400000); try reflexivity; lia.
Qed.

Lemma selectActivity_touch now key k t :
  Sql.selectActivity k (Sql.touchActivity now key t) =
  option_map
    (fun r => if (playerKey r =? key)%string
              then mkActivity (playerKey r) now (submissionCount r + 1)
                              (firstSeen r) (sessionId r)
              else r)
    (Sql.selectActivity k t).
Proof.
  unfold Sql.selectActivity, Sql.touchActivity. apply find_map_same.
  intros x. now destruct (playerKey x =? key)%string.
Qed.

Lemma selectActivity_key key t a :
  Sql.selectActivity key t = Some a -> playerKey a = key.
Proof.
  unfold Sql.selectActivity. intros H. apply find_some in H as [_ H].
  now apply String.eqb_eq.
Qed.

Lemma selectActivity_touch_same now key t a :
  Sql.selectActivity key t = Some a ->
  Sql.selectActivity key (Sql.touchActivity now key t) = Some (touched now a).
Proof.
  intros S. rewrite selectActivity_touch, S. simpl.
  pose proof (selectActivity_key _ _ _ S) as K.
  apply String.eqb_eq in K. now rewrite K.
Qed.

Lemma selectActivity_touch_other now key k t :
  k <> key ->
  Sql.selectActivity k (Sql.touchActivity now key t) = Sql.selectActivity k t.
Proof.
  intros Hk. rewrite selectActivity_touch.
  destruct (Sql.selectActivity k t) as [a|] eqn:Sk; [|reflexivity].
  simpl. rewrite (selectActivity_key _ _ _ Sk).
  apply String.eqb_neq in Hk. now rewrite Hk.
Qed.

Lemma insertActivity_fresh r t :
  Sql.selectActivity (playerKey r) t = None ->
  Sql.insertActivity r t = Some (t ++ [r])%list.
Proof.
  unfold Sql.selectActivity, Sql.insertActivity. intros H.
  now rewrite (find_none_existsb _ _ H).
Qed.

Lemma selectEntry_key key t e :
  Sql.selectEntry key t = Some e -> name e = key.
Proof.
  unfold Sql.selectEntry. intros H. apply find_some in H as [_ H].
  now apply String.eqb_eq.
Qed.

Lemma insertEntry_fresh r t :
  Sql.selectEntry (name r) t = None ->
  Sql.insertEntry r t = Some (t ++ [r])%list.
Proof.
  unfold Sql.selectEntry, Sql.insertEntry. intros H.
  now rewrite (find_none_existsb _ _ H).
Qed.

End StoreLemmas.

(** C7: the first check for a name is allowed and creates its activity
    row: both timestamps are [now], the count is 1, and the session id is
    the caller's when it gave a non-empty one, a generated token otherwise. *)
Theorem first_contact_allowed db env playerName sid :
  Sql.selectActivity (Js.toLowerCase playerName) (player_activity db) = None ->
  let key := Js.toLowerCase playerName in
  let now := rateNow env in
  exists token,
    checkRateLimit db env playerName sid
    = Some (mkDb (leaderboard db)
                 (player_activity db ++ [mkActivity key now 1 now token])%list,
            mkRate true None)
    /\ Sql.selectActivity key
         (player_activity db ++ [mkActivity key now 1 now token])%list
       = Some (mkActivity key now 1 now token)
    /\ (forall hint, sid = Some hint -> hint <> ""%string -> token = hint)
    /\ (sid = None \/ sid = Some ""%string -> token = generateSessionId env).
Proof.
  intros N key now. exists (Js.or_else sid (generateSessionId env)).
  split; [|split; [|split]].
  - subst key now. unfold checkRateLimit. cbv zeta. rewrite N.
    now rewrite insertActivity_fresh.
  - unfold Sql.selectActivity. apply find_app_last; [exact N|].
    simpl. apply String.eqb_refl.
  - intros hint -> Hne. simpl. apply String.eqb_neq in Hne. now rewrite Hne.
  - intros [-> | ->]; reflexivity.
Qed.

(** C4: for a player with an activity row, a denied check leaves the store
    as it was (so the next attempt is compared with the same timestamp),
    a check inside the 30 s cooldown is denied, and an allowed check sets
    the last submission to [now] and adds exactly 1 to the count, touching
    nothing else. *)
Theorem rate_limit_existing db env playerName sid activity :
  Sql.selectActivity (Js.toLowerCase playerName) (player_activity db)
  = Some activity ->
  let key := Js.toLowerCase playerName in
  let now := rateNow env in
  exists db' res,
    checkRateLimit db env playerName sid = Some (db', res)
    /\ (allowed res = false -> db' = db)
    /\ (now - lastSubmission activity < 30000 ->
        allowed res = false /\ reason res = Some cooldownReason)
    /\ (allowed res = true ->
        leaderboard db' = leaderboard db
        /\ Sql.selectActivity key (player_activity db')
           = Some (touched now activity)
        /\ forall k, k <> key ->
             Sql.selectActivity k (player_activity db')
             = Sql.selectActivity k (player_activity db)).
Proof.
  intros S key now. subst key. unfold checkRateLimit. cbv zeta. fold now.
  rewrite S.
  destruct (Z.ltb_spec (now - lastSubmission activity) 30000) as [C|C].
  - eexists _, _. split; [reflexivity|]. simpl.
    repeat split; auto; discriminate.
  - destruct (Qlt_bool _ 1 && (50 <=? submissionCount activity)) eqn:Q.
    + eexists _, _. split; [reflexivity|]. simpl.
      repeat split; auto; try discriminate; lia.
    + eexists _, _. split; [reflexivity|]. simpl.
      split; [discriminate|]. split; [lia|]. intros _.
      split; [reflexivity|]. split.
      * now apply selectActivity_touch_same.
      * intros k Hk. now apply selectActivity_touch_other.
Qed.

(** C5: past the cooldown, the check is denied exactly when fewer than
    24 hours have passed since first contact and the count has reached 50;
    the reason is then the quota one and nothing is written.  From 24 hours
    on the check is allowed whatever the count, which never goes down. *)
Theorem daily_quota_gate db env playerName sid activity :
  Sql.selectActivity (Js.toLowerCase playerName) (player_activity db)
  = Some activity ->
  30000 <= rateNow env - lastSubmission activity ->
  let key := Js.toLowerCase playerName in
  let now := rateNow env in
  exists db' res,
    checkRateLimit db env playerName sid = Some (db', res)
    /\ (allowed res = false <->
        now - firstSeen activity < 86400000 /\ 50 <= submissionCount activity)
    /\ (allowed res = false -> reason res = Some quotaReason /\ db' = db)
    /\ (86400000 <= now - firstSeen activity -> allowed res = true)
    /\ (exists a', Sql.selectActivity key (player_activity db') = Some a'
                   /\ submissionCount activity <= submissionCount a').
Proof.
  intros S C key now. subst key. unfold checkRateLimit. cbv zeta. fold now.
  rewrite S.
  destruct (Z.ltb_spec (now - lastSubmission activity) 30000) as [C'|_];
    [unfold now in C'; lia|].
  rewrite days_lt_one.
  destruct (Z.ltb_spec (now - firstSeen activity) 86400000) as [D|D];
    destruct (Z.leb_spec 50 (submissionCount activity)) as [N|N]; simpl;
    eexists _, _; (split; [reflexivity|]); simpl.
  1: { repeat split; auto; try lia. exists activity. split; [exact S | lia]. }
  all: split; [split; [discriminate | lia]|];
       (split; [discriminate|]); (split; [reflexivity|]);
       exists (touched now activity); (split; [|simpl; lia]);
       now apply selectActivity_touch_same.
Qed.

Section Ordering.

Lemma placeDesc_perm x l : Permutation (Sql.placeDesc x l) (x :: l).
Proof.
  induction l as [|y l IH]; simpl; [apply Permutation_refl|].
  destruct (score x <? score y); [|apply Permutation_refl].
  apply perm_trans with (y :: x :: l); [now apply perm_skip | apply perm_swap].
Qed.

Lemma orderByScoreDesc_perm t : Permutation (Sql.orderByScoreDesc t) t.
Proof.
  induction t as [|x t IH]; simpl; [constructor|].
  apply perm_trans with (x :: Sql.orderByScoreDesc t);
    [apply placeDesc_perm | now apply perm_skip].
Qed.

Lemma placeDesc_sorted x l :
  StronglySorted scoreGe l -> StronglySorted scoreGe (Sql.placeDesc x l).
Proof.
  induction l as [|y l IH]; simpl; intros S.
  - repeat constructor.
  - apply StronglySorted_inv in S as [S F].
    destruct (Z.ltb_spec (score x) (score y)) as [L|L].
    + constructor; [auto|].
      apply (Permutation_Forall (Permutation_sym (placeDesc_perm x l))).
      constructor; [unfold scoreGe; lia | assumption].
    + constructor; [now constructor|].
      constructor; [exact L|].
      eapply Forall_impl; [|exact F]. unfold scoreGe. intros; lia.
Qed.

Lemma orderByScoreDesc_sorted t :
  StronglySorted scoreGe (Sql.orderByScoreDesc t).
Proof.
  induction t as [|x t IH]; simpl; [constructor | now apply placeDesc_sorted].
Qed.

Lemma orderByScoreDesc_length t :
  List.length (Sql.orderByScoreDesc t) = List.length t.
Proof. apply Permutation_length, orderByScoreDesc_perm. Qed.

Lemma find_rowNumber_none key k l :
  (forall r, In r l -> name r <> key) ->
  find (fun p => (name (snd p) =? key)%string) (Sql.rowNumber k l) = None.
Proof.
  revert k. induction l as [|r l IH]; simpl; intros k H; [reflexivity|].
  destruct (String.eqb_spec (name r) key) as [E|_].
  - exfalso. apply (H r); auto.
  - apply IH. intros; apply H; auto.
Qed.

Lemma find_rowNumber_some key k l :
  (exists r, In r l /\ name r = key) ->
  exists i r,
    find (fun p => (name (snd p) =? key)%string) (Sql.rowNumber k l)
    = Some (k + Z.of_nat i, r)
    /\ nth_error l i = Some r /\ name r = key.
Proof.
  revert k. induction l as [|r l IH]; simpl; intros k [r0 [I N]]; [tauto|].
  destruct (String.eqb_spec (name r) key) as [E|E].
  - exists 0%nat, r. rewrite Z.add_0_r. auto.
  - destruct I as [->|I]; [contradiction|].
    destruct (IH (k + 1) (ex_intro _ r0 (conj I N))) as [i [r' [F [Nth N']]]].
    exists (S i), r'. rewrite F. simpl. repeat split; auto. do 2 f_equal. lia.
Qed.

Lemma selectEntry_none_in key t :
  Sql.selectEntry key t = None -> forall r, In r t -> name r <> key.
Proof.
  unfold Sql.selectEntry. intros H r I E.
  pose proof (find_none _ _ H r I) as F. simpl in F.
  apply String.eqb_neq in F. contradiction.
Qed.

End Ordering.

(** C9: the leaderboard endpoint returns the first ten rows of the table
    put in descending score order: together with the rows left out they
    are a rearrangement of the table that is sorted by score, and their
    number is ten or the whole table if it is smaller (ten for fifteen
    players). *)
Theorem top_scores_sorted_truncated (db : Database) :
  exists rest,
    Permutation (getTopScores db ++ rest) (leaderboard db)
    /\ StronglySorted scoreGe (getTopScores db ++ rest)
    /\ StronglySorted scoreGe (getTopScores db)
    /\ List.length (getTopScores db)
       = Nat.min 10 (List.length (leaderboard db)).
Proof.
  exists (skipn 10 (Sql.orderByScoreDesc (leaderboard db))).
  unfold getTopScores. rewrite firstn_skipn.
  split; [apply orderByScoreDesc_perm|].
  split; [apply orderByScoreDesc_sorted|]. split.
  - pose proof (orderByScoreDesc_sorted (leaderboard db)) as S.
    rewrite <- (firstn_skipn 10) in S.
    revert S. generalize (firstn 10 (Sql.orderByScoreDesc (leaderboard db))).
    intros l. induction l as [|x l IH]; simpl; intros S; [constructor|].
    apply StronglySorted_inv in S as [S F]. constructor; [auto|].
    apply Forall_app in F. tauto.
  - now rewrite length_firstn, orderByScoreDesc_length.
Qed.

(** C1, as the code has it: a rank lookup for a name without a score row
    answers rank null and totalPlayers 0, whatever the table holds. *)
Theorem rank_of_unknown_player (db : Database) (nm : string) :
  Sql.selectEntry (Js.toLowerCase nm) (leaderboard db) = None ->
  getRank db nm = mkRank None 0.
Proof.
  intros N. unfold getRank, rankQuery.
  rewrite find_rowNumber_none; [reflexivity|].
  intros r I. apply (selectEntry_none_in _ _ N).
  now apply (Permutation_in _ (orderByScoreDesc_perm _)).
Qed.

Lemma rank_of_unknown_player_witness :
  getRank (mkDb [mkEntry "abc" 10 0; mkEntry "def" 20 0] []) "XYZ"
  = mkRank None 0.
Proof. apply rank_of_unknown_player. reflexivity. Defined.

(** C1, as the claim words it, fails: with one player stored, the lookup of
    another name reports zero players, not one. *)
Lemma rank_unknown_total_is_zero :
  Sql.selectEntry (Js.toLowerCase "xyz") (leaderboard boardAbc) = None
  /\ rank (getRank boardAbc "xyz") = None
  /\ totalPlayers (getRank boardAbc "xyz") = 0
  /\ totalPlayers (getRank boardAbc "xyz")
     <> Z.of_nat (List.length (leaderboard boardAbc)).
Proof. repeat split. discriminate. Qed.

(** For a stored name the answer carries the row number of its row in the
    ordered table and the number of rows. *)
Lemma rank_of_known_player (db : Database) (nm : string) e :
  Sql.selectEntry (Js.toLowerCase nm) (leaderboard db) = Some e ->
  exists i r,
    getRank db nm
    = mkRank (Some (1 + Z.of_nat i)) (Z.of_nat (List.length (leaderboard db)))
    /\ nth_error (Sql.orderByScoreDesc (leaderboard db)) i = Some r
    /\ name r = Js.toLowerCase nm.
Proof.
  intros S. unfold getRank, rankQuery.
  destruct (find_rowNumber_some (Js.toLowerCase nm) 1
              (Sql.orderByScoreDesc (leaderboard db))) as [i [r [F [Nth N]]]].
  - exists e. split; [|now apply selectEntry_key in S].
    apply (Permutation_in _ (Permutation_sym (orderByScoreDesc_perm _))).
    unfold Sql.selectEntry in S. now apply find_some in S as [I _].
  - exists i, r. rewrite F. auto.
Qed.

Section Submission.

(** The rate limiter always answers, never touches the score table, and
    leaves the whole store alone when it denies. *)
Lemma checkRateLimit_total db env playerName sid :
  exists db1 res,
    checkRateLimit db env playerName sid = Some (db1, res)
    /\ leaderboard db1 = leaderboard db
    /\ (allowed res = false ->
        db1 = db /\ (reason res = Some cooldownReason
                     \/ reason res = Some quotaReason)).
Proof.
  unfold checkRateLimit. cbv zeta.
  destruct (Sql.selectActivity _ _) as [a|] eqn:S.
  - destruct (_ <? 30000).
    + eexists _, _. split; [reflexivity|]. simpl. auto.
    + destruct (_ && _).
      * eexists _, _. split; [reflexivity|]. simpl. auto.
      * eexists _, _. split; [reflexivity|]. simpl.
        split; [reflexivity | discriminate].
  - rewrite insertActivity_fresh by exact S.
    eexists _, _. split; [reflexivity|]. simpl.
    split; [reflexivity | discriminate].
Qed.

Lemma recordReason_nonempty best : (recordReason best =? "")%string = false.
Proof. reflexivity. Qed.

(** A submission always answers (no store fault), in one of the six ways. *)
Lemma submitScore_cases db env body :
  exists db' resp,
    submitScore db env body = Some (db', resp)
    /\ SubmitCase db env body db' resp.
Proof.
  unfold submitScore.
  destruct (nameRejected (bodyName body)) eqn:N.
  { eexists _, _. split; [reflexivity | now constructor]. }
  destruct (scoreRejected (bodyScore body)) eqn:V.
  { eexists _, _. split; [reflexivity | now constructor]. }
  cbv zeta.
  destruct (checkRateLimit_total db env (Js.trim (asString (bodyName body)))
              (bodySessionId body)) as [db1 [res [C [L D]]]].
  rewrite C. destruct (allowed res) eqn:A; simpl.
  - unfold validateScoreProgression. cbv zeta. rewrite L.
    fold (submittedKey body). fold (submittedScore body).
    destruct (Sql.selectEntry (submittedKey body) (leaderboard db))
      as [e|] eqn:S.
    + destruct (Z.leb_spec (submittedScore body) (score e)) as [P|P];
        cbn [negb valid progReason].
      * eexists _, _. split.
        -- unfold reasonOr, Js.or_else. rewrite recordReason_nonempty.
           reflexivity.
        -- eapply case_progression; eauto.
      * eexists _, _. split; [reflexivity|]. eapply case_update; eauto.
    + simpl. rewrite insertEntry_fresh by exact S.
      eexists _, _. split; [reflexivity|]. eapply case_insert; eauto.
  - destruct (D eq_refl) as [-> R].
    destruct R as [R|R]; rewrite R; simpl;
      (eexists _, _; split; [reflexivity|]); eapply case_rate; eauto.
Qed.

Lemma submitScore_inv db env body db' resp :
  submitScore db env body = Some (db', resp) ->
  SubmitCase db env body db' resp.
Proof.
  intros H. destruct (submitScore_cases db env body) as [d [r [E C]]].
  rewrite E in H. now inversion H; subst.
Qed.

End Submission.

Section Progression.

Lemma selectEntry_update k s ts key t :
  Sql.selectEntry k (Sql.updateEntry s ts key t)
  = option_map
      (fun r => if (name r =? key)%string then mkEntry (name r) s ts else r)
      (Sql.selectEntry k t).
Proof.
  unfold Sql.selectEntry, Sql.updateEntry. apply find_map_same.
  intros x. now destruct (name x =? key)%string.
Qed.

Lemma updateEntry_names s ts key t :
  map name (Sql.updateEntry s ts key t) = map name t.
Proof.
  unfold Sql.updateEntry. rewrite map_map. apply map_ext.
  intros r. now destruct (name r =? key)%string.
Qed.

Lemma nameRejected_false v :
  nameRejected v = false -> isValidName (Js.trim (asString v)) = true.
Proof.
  unfold nameRejected. rewrite orb_false_iff. intros [_ H].
  destruct v; try discriminate. simpl. now apply negb_false_iff.
Qed.

Lemma storedScore_step db env body db' resp key old :
  SubmitCase db env body db' resp ->
  storedScore db key = Some old ->
  exists new,
    storedScore db' key = Some new /\ old <= new
    /\ (forall msg, resp = Accepted msg -> key = submittedKey body ->
        new = submittedScore body /\ old < new).
Proof.
  unfold storedScore.
  intros C S.
  destruct C as
    [ Hn | Hn Hs | res why Hn Hs Hc Ha Hr Hw
     | db1 res e Hn Hs Hc Ha Hl He Hp
     | db1 res e Hn Hs Hc Ha Hl He Hp
     | db1 res Hn Hs Hc Ha Hl He ].
  1-3: exists old; split;
         [assumption | split; [lia | intros msg Hm; discriminate Hm]].
  - exists old. rewrite Hl. split;
      [assumption | split; [lia | intros msg Hm; discriminate Hm]].
  - simpl. rewrite selectEntry_update.
    destruct (Sql.selectEntry key (leaderboard db)) as [r|] eqn:K;
      [|discriminate]. simpl in S. injection S as <-.
    pose proof (selectEntry_key _ _ _ K) as Nk. simpl.
    destruct (String.eqb_spec (name r) (submittedKey body)) as [E|E]; simpl.
    + exists (submittedScore body).
      assert (r = e) by (rewrite <- Nk, E in K; congruence). subst r.
      repeat split; lia.
    + exists (score r). repeat split; try lia; congruence.
  - simpl. unfold Sql.selectEntry at 1. rewrite find_app.
    fold (Sql.selectEntry key (leaderboard db)).
    destruct (Sql.selectEntry key (leaderboard db)) as [r|] eqn:K;
      [|discriminate].
    simpl in S. injection S as <-. exists (score r).
    split; [reflexivity|]. split; [lia|]. intros msg _ ->. congruence.
Qed.

Lemma names_step db env body db' resp :
  SubmitCase db env body db' resp ->
  NoDup (map name (leaderboard db))
  /\ Forall (fun e => foldedName (name e)) (leaderboard db) ->
  NoDup (map name (leaderboard db'))
  /\ Forall (fun e => foldedName (name e)) (leaderboard db').
Proof.
  intros C [U F].
  destruct C as
    [ Hn | Hn Hs | res why Hn Hs Hc Ha Hr Hw
     | db1 res e Hn Hs Hc Ha Hl He Hp
     | db1 res e Hn Hs Hc Ha Hl He Hp
     | db1 res Hn Hs Hc Ha Hl He ]; simpl; auto.
  - now rewrite Hl.
  - rewrite updateEntry_names. split; [assumption|].
    unfold Sql.updateEntry. apply Forall_map.
    eapply Forall_impl; [|exact F]. intros r. simpl.
    now destruct (name r =? submittedKey body)%string.
  - split.
    + rewrite map_app. simpl.
      apply NoDup_app; [assumption | repeat constructor; simpl; tauto |].
      intros k I [<-|[]]. apply in_map_iff in I as [r [E I]].
      now apply (selectEntry_none_in _ _ He r I).
    + apply Forall_app. split; [assumption|]. constructor; [|constructor].
      simpl. exists (Js.trim (asString (bodyName body))).
      split; [now apply nameRejected_false | reflexivity].
Qed.

Lemma reachable_names db :
  reachable db ->
  NoDup (map name (leaderboard db))
  /\ Forall (fun e => foldedName (name e)) (leaderboard db).
Proof.
  induction 1 as [|db env body db' resp R IH S].
  - simpl. split; constructor.
  - apply submitScore_inv in S. eapply names_step; eauto.
Qed.

Lemma submitAll_monotone reqs : forall db key old,
  storedScore db key = Some old ->
  exists db' new,
    submitAll db reqs = Some db'
    /\ storedScore db' key = Some new /\ old <= new.
Proof.
  induction reqs as [|[env body] reqs IH]; simpl; intros db key old S.
  - exists db, old. repeat split; [assumption | lia].
  - destruct (submitScore_cases db env body) as [db1 [resp [E C]]].
    rewrite E.
    destruct (storedScore_step _ _ _ _ _ _ _ C S) as [mid [S1 [L _]]].
    destruct (IH db1 key mid S1) as [db' [new [A [S' L']]]].
    exists db', new. repeat split; [assumption | assumption | lia].
Qed.

End Progression.

(** C6: in every reachable store the names on the board are pairwise
    distinct lower-cased names; a score that does not exceed the stored one
    fails progression; a submission never lowers a stored score and an
    accepted one for the same name strictly raises it to the submitted
    score; so over any sequence of submissions a stored score only grows. *)
Theorem stored_score_unique_and_monotone (db : Database) :
  reachable db ->
  NoDup (map name (leaderboard db))
  /\ Forall (fun e => foldedName (name e)) (leaderboard db)
  /\ (forall playerName newScore old,
        storedScore db (Js.toLowerCase playerName) = Some old ->
        newScore <= old ->
        validateScoreProgression db playerName newScore
        = mkProg false (Some (recordReason old)))
  /\ (forall env body key old,
        storedScore db key = Some old ->
        exists db' resp new,
          submitScore db env body = Some (db', resp)
          /\ storedScore db' key = Some new /\ old <= new
          /\ (forall msg, resp = Accepted msg -> key = submittedKey body ->
              new = submittedScore body /\ old < new))
  /\ (forall reqs key old,
        storedScore db key = Some old ->
        exists db' new,
          submitAll db reqs = Some db'
          /\ storedScore db' key = Some new /\ old <= new).
Proof.
  intros R. destruct (reachable_names db R) as [U F].
  split; [exact U|]. split; [exact F|]. split; [|split].
  - unfold storedScore, validateScoreProgression. intros p s old S L.
    cbv zeta. destruct (Sql.selectEntry _ _) as [e|]; [|discriminate].
    simpl in S. injection S as <-.
    apply Z.leb_le in L. now rewrite L.
  - intros env body key old S.
    destruct (submitScore_cases db env body) as [db' [resp [E C]]].
    destruct (storedScore_step _ _ _ _ _ _ _ C S) as [new H].
    exists db', resp, new. split; [exact E | exact H].
  - intros reqs key old S. now apply submitAll_monotone.
Qed.

Lemma boardAbc_reachable : reachable boardAbc.
Proof.
  apply (reach_submit emptyDb (mkEnv 1000000 "0.4fzyo82mvyr" 1000001 1000002)
           (bodyOf " Abc " 10 (Some "tok")) boardAbc (Accepted savedMessage)).
  - apply reach_empty.
  - reflexivity.
Qed.

Lemma stored_score_unique_and_monotone_witness :
  NoDup (map name (leaderboard boardAbc)).
Proof.
  exact (proj1 (stored_score_unique_and_monotone boardAbc boardAbc_reachable)).
Defined.

(** What an allowed rate check writes: the activity table is no longer the
    one it read, and the row of the key is the created one or the old one
    with [now] and one more on the count. *)
Lemma checkRateLimit_allowed_write db env p sid db1 res :
  checkRateLimit db env p sid = Some (db1, res) ->
  allowed res = true ->
  player_activity db1 <> player_activity db
  /\ exists a',
       Sql.selectActivity (Js.toLowerCase p) (player_activity db1) = Some a'
       /\ lastSubmission a' = rateNow env
       /\ (forall a,
             Sql.selectActivity (Js.toLowerCase p) (player_activity db)
             = Some a ->
             a' = touched (rateNow env) a)
       /\ (Sql.selectActivity (Js.toLowerCase p) (player_activity db) = None ->
           a' = mkActivity (Js.toLowerCase p) (rateNow env) 1 (rateNow env)
                           (Js.or_else sid (generateSessionId env))).
Proof.
  unfold checkRateLimit. cbv zeta. intros C A.
  destruct (Sql.selectActivity _ (player_activity db)) as [a|] eqn:S.
  - destruct (_ <? 30000); [injection C as _ <-; discriminate A|].
    destruct (_ && _); injection C as <- <-; [discriminate A|]. simpl.
    pose proof (selectActivity_touch_same (rateNow env) _ _ _ S) as T.
    split.
    + intros E. rewrite E, S in T.
      assert (K : submissionCount a = submissionCount (touched (rateNow env) a))
        by congruence.
      unfold touched in K. cbn [submissionCount] in K. lia.
    + exists (touched (rateNow env) a). split; [exact T|].
      split; [reflexivity|]. split; [|discriminate].
      intros a0 E. congruence.
  - rewrite insertActivity_fresh in C by exact S. injection C as <- _. simpl.
    split.
    + intros E. apply (f_equal (@List.length _)) in E.
      rewrite length_app in E. simpl in E. lia.
    + eexists. split.
      * unfold Sql.selectActivity. apply find_app_last; [exact S|].
        simpl. apply String.eqb_refl.
      * split; [reflexivity|]. split; [discriminate | reflexivity].
Qed.

(** C3, as the code has it: a rejected submission never changes the score
    table; it changes nothing at all when it stops at the name gate, the
    score gate or the rate limiter; when it stops at the progression gate
    the store is the one the allowed rate check returned, whose activity
    table differs from the one before: the player's row was created, or
    its last submission set to [now] and its count raised by one. *)
Theorem rejected_submission_effect (db : Database) (env : Env)
  (body : SubmitBody) (db' : Database) (st : Z) (err : string) :
  submitScore db env body = Some (db', Rejected st err) ->
  leaderboard db' = leaderboard db
  /\ (nameRejected (bodyName body) = true
      \/ scoreRejected (bodyScore body) = true
      \/ st = 429 -> db' = db)
  /\ (nameRejected (bodyName body) = false ->
      scoreRejected (bodyScore body) = false ->
      st <> 429 ->
      exists res best a',
        st = 400 /\ err = recordReason best
        /\ storedScore db (submittedKey body) = Some best
        /\ submittedScore body <= best
        /\ checkRateLimit db env (Js.trim (asString (bodyName body)))
                          (bodySessionId body) = Some (db', res)
        /\ allowed res = true
        /\ player_activity db' <> player_activity db
        /\ Sql.selectActivity (submittedKey body) (player_activity db')
           = Some a'
        /\ lastSubmission a' = rateNow env
        /\ (forall a,
              Sql.selectActivity (submittedKey body) (player_activity db)
              = Some a ->
              a' = touched (rateNow env) a)
        /\ (Sql.selectActivity (submittedKey body) (player_activity db) = None ->
            a' = mkActivity (submittedKey body) (rateNow env) 1 (rateNow env)
                            (Js.or_else (bodySessionId body)
                                        (generateSessionId env)))).
Proof.
  intros E. apply submitScore_inv in E.
  inversion E as
    [ Hn | Hn Hs | res why Hn Hs Hc Ha Hr Hw
    | db1 res e Hn Hs Hc Ha Hl He Hp | | ]; subst.
  - repeat split; auto. intros K. congruence.
  - repeat split; auto. intros _ K. congruence.
  - repeat split; auto. intros _ _ K. congruence.
  - split; [exact Hl|]. split.
    + intros [K|[K|K]]; congruence.
    + intros _ _ _.
      destruct (checkRateLimit_allowed_write _ _ _ _ _ _ Hc Ha)
        as [D [a' [S [L [T N]]]]].
      exists res, (score e), a'.
      unfold storedScore. rewrite He. repeat split; auto.
Qed.

Lemma rejected_submission_effect_witness :
  player_activity
    (mkDb [mkEntry "abc" 10 1000002]
          [mkActivity "abc" 1040100 2 1000000 "tok"])
  <> player_activity boardAbc.
Proof.
  destruct (rejected_submission_effect boardAbc
              (mkEnv 1040100 "0.4fzyo82mvyr" 1040101 1040102)
              (bodyOf "abc" 5 None)
              (mkDb [mkEntry "abc" 10 1000002]
                    [mkActivity "abc" 1040100 2 1000000 "tok"])
              400 "Devi superare il tuo record di 10 punti" eq_refl)
    as [_ [_ H]].
  destruct H as [res [best [a' [_ [_ [_ [_ [_ [_ [D _]]]]]]]]]].
  - reflexivity.
  - reflexivity.
  - discriminate.
  - exact D.
Defined.

(** C3, as the claim words it, fails: a score below the stored best, sent
    after the cooldown, is rejected and yet the activity row is rewritten. *)
Lemma rejected_submission_updates_activity :
  submitScore boardAbc (mkEnv 1040100 "0.4fzyo82mvyr" 1040101 1040102)
              (bodyOf "abc" 5 None)
  = Some (mkDb [mkEntry "abc" 10 1000002]
               [mkActivity "abc" 1040100 2 1000000 "tok"],
          Rejected 400 "Devi superare il tuo record di 10 punti")
  /\ player_activity
       (mkDb [mkEntry "abc" 10 1000002]
             [mkActivity "abc" 1040100 2 1000000 "tok"])
     <> player_activity boardAbc.
Proof. split; [reflexivity | discriminate]. Qed.

Section SessionId.

Lemma selectActivity_erase key t1 t2 :
  map eraseSession t1 = map eraseSession t2 ->
  option_map eraseSession (Sql.selectActivity key t1)
  = option_map eraseSession (Sql.selectActivity key t2).
Proof.
  revert t2. induction t1 as [|a t1 IH]; intros [|b t2] E; try discriminate;
    [reflexivity|].
  simpl in E. injection E as E1 E2 E3 E4 E5. simpl. rewrite E1.
  destruct (playerKey b =? key)%string; simpl.
  - unfold eraseSession. congruence.
  - auto.
Qed.

Lemma touchActivity_erase now key t :
  map eraseSession (Sql.touchActivity now key t)
  = Sql.touchActivity now key (map eraseSession t).
Proof.
  unfold Sql.touchActivity. rewrite !map_map. apply map_ext.
  intros a. simpl. now destruct (playerKey a =? key)%string.
Qed.

(** The rate limiter decides alike on stores that differ in session ids,
    whatever hint each call carries. *)
Lemma checkRateLimit_sessions d1 d2 env playerName sid1 sid2 :
  sameButSessions d1 d2 ->
  exists r1 r2 res,
    checkRateLimit d1 env playerName sid1 = Some (r1, res)
    /\ checkRateLimit d2 env playerName sid2 = Some (r2, res)
    /\ sameButSessions r1 r2.
Proof.
  intros [L A]. unfold checkRateLimit. cbv zeta.
  pose proof (selectActivity_erase (Js.toLowerCase playerName) _ _ A) as S.
  destruct (Sql.selectActivity _ (player_activity d1)) as [a1|] eqn:S1;
    destruct (Sql.selectActivity _ (player_activity d2)) as [a2|] eqn:S2;
    try discriminate S.
  - simpl in S. injection S as _ E2 E3 E4. rewrite E2, E3, E4.
    destruct (_ <? 30000).
    + eexists _, _, _. repeat split; auto.
    + destruct (_ && _).
      * eexists _, _, _. repeat split; auto.
      * eexists _, _, _. repeat split; auto. simpl.
        rewrite !touchActivity_erase. now rewrite A.
  - rewrite !insertActivity_fresh by assumption.
    eexists _, _, _. repeat split; auto. simpl.
    rewrite !map_app, A. reflexivity.
Qed.

Lemma checkRateLimit_keeps_session db env playerName sid db1 res key a :
  checkRateLimit db env playerName sid = Some (db1, res) ->
  Sql.selectActivity key (player_activity db) = Some a ->
  exists a', Sql.selectActivity key (player_activity db1) = Some a'
             /\ sessionId a' = sessionId a /\ firstSeen a' = firstSeen a.
Proof.
  unfold checkRateLimit. cbv zeta. intros C S.
  destruct (Sql.selectActivity (Js.toLowerCase playerName) _) as [b|] eqn:Sb.
  - destruct (_ <? 30000); [injection C as <- _; eauto|].
    destruct (_ && _); injection C as <- _; [eauto|]. simpl.
    rewrite selectActivity_touch, S. simpl.
    destruct (playerKey a =? _)%string; eauto.
  - rewrite insertActivity_fresh in C by exact Sb. injection C as <- _. simpl.
    unfold Sql.selectActivity in *. rewrite find_app, S. eauto.
Qed.

End SessionId.

Section RawHandler.

Variable scalarText : Js.value -> option string.


(** For a player already known the hint is not looked at. *)
Lemma checkRateLimitRaw_known db env p hint a :
  Sql.selectActivity (Js.toLowerCase p) (player_activity db) = Some a ->
  exists db1 res,
    checkRateLimitRaw scalarText db env p hint = (db1, Some res)
    /\ checkRateLimit db env p None = Some (db1, res).
Proof.
  intros S. unfold checkRateLimitRaw, checkRateLimit. cbv zeta. rewrite S.
  destruct (_ <? 30000); [eauto|]. destruct (_ && _); eauto.
Qed.

(** On a hint of the declared type the raw limiter is [checkRateLimit]. *)
Lemma checkRateLimitRaw_typed db env p sid :
  checkRateLimitRaw scalarText db env p
    (match sid with Some s => Js.JString s | None => Js.JUndefined end)
  = match checkRateLimit db env p sid with
    | Some (db1, res) => (db1, Some res)
    | None => (db, None)
    end.
Proof.
  unfold checkRateLimitRaw, checkRateLimit. cbv zeta.
  destruct (Sql.selectActivity _ _) as [a|].
  - destruct (_ <? 30000); [reflexivity|]. now destruct (_ && _).
  - assert (B : boundSessionId scalarText
                  (match sid with
                   | Some s => Js.JString s
                   | None => Js.JUndefined
                   end) env
                = Some (Js.or_else sid (generateSessionId env))).
    { unfold boundSessionId. destruct sid as [s|]; simpl; [|reflexivity].
      now destruct (s =? "")%string. }
    rewrite B. now destruct (Sql.insertActivity _ _).
Qed.




End RawHandler.




(** X19: on a body of the declared type (session id missing or a string)
    the handler on raw bodies is [submitScore]: same store, same answer,
    and it does not throw. *)
Theorem typed_body_is_raw (scalarText : Js.value -> option string)
  (db : Database) (env : Env) (body : SubmitBody) :
  submitScoreRaw scalarText db env (rawOf body)
  = replyOf db (submitScore db env body)
  /\ exists db' resp,
       submitScoreRaw scalarText db env (rawOf body) = (db', Answered resp).
Proof.
  assert (E : submitScoreRaw scalarText db env (rawOf body)
              = replyOf db (submitScore db env body)).
  { unfold submitScoreRaw, submitScore, rawOf.
    cbn [rawName rawScore rawSessionId].
    destruct (nameRejected _); [reflexivity|].
    destruct (scoreRejected _); [reflexivity|]. cbv zeta.
    rewrite checkRateLimitRaw_typed.
    destruct (checkRateLimit _ _ _ _) as [[db1 res]|] eqn:C; [|reflexivity].
    destruct (negb (allowed res)); [reflexivity|].
    destruct (negb (valid _)); [reflexivity|].
    destruct (Sql.selectEntry _ _) eqn:Q; [reflexivity|].
    now rewrite insertEntry_fresh by exact Q. }
  split; [exact E|]. rewrite E.
  destruct (submitScore_cases db env body) as [db' [resp [S _]]].
  rewrite S. simpl. eauto.
Qed.


(** ** Worked examples *)

Example toString36_ex : Js.toString36 1730563200000 = "m30cnb40".
Proof. vm_compute. reflexivity. Qed.

Example generateSessionId_ex :
  generateSessionId (mkEnv 0 "0.4fzyo82mvyr" 1730563200000 0)
  = "4fzyo82mvm30cnb40".
Proof. vm_compute. reflexivity. Qed.

Lemma first_contact_allowed_witness :
  exists token,
    checkRateLimit boardAbc (mkEnv 1000500 "0.4fzyo82mvyr" 1000501 1000502)
                   "Zed" (Some "mine")
    = Some (mkDb (leaderboard boardAbc)
                 (player_activity boardAbc
                  ++ [mkActivity "zed" 1000500 1 1000500 token])%list,
            mkRate true None)
    /\ token = "mine".
Proof.
  destruct (first_contact_allowed boardAbc
              (mkEnv 1000500 "0.4fzyo82mvyr" 1000501 1000502)
              "Zed" (Some "mine"))
    as [token [C [_ [H _]]]].
  - reflexivity.
  - exists token. split; [exact C|]. apply (H "mine"); [reflexivity | discriminate].
Defined.

Lemma rate_limit_existing_witness :
  exists db' res,
    checkRateLimit boardAbc (mkEnv 1000500 "0.4fzyo82mvyr" 1000501 1000502)
                   "ABC" None = Some (db', res)
    /\ allowed res = false /\ db' = boardAbc.
Proof.
  destruct (rate_limit_existing boardAbc
              (mkEnv 1000500 "0.4fzyo82mvyr" 1000501 1000502) "ABC" None
              (mkActivity "abc" 1000000 1 1000000 "tok"))
    as [db' [res [C [D [Cool _]]]]].
  - reflexivity.
  - exists db', res. split; [exact C|].
    assert (A : allowed res = false) by (apply Cool; simpl; lia).
    split; [exact A | exact (D A)].
Defined.

Lemma daily_quota_gate_witness :
  exists db' res,
    checkRateLimit
      (mkDb [] [mkActivity "abc" 90000000 999 1000000 "tok"])
      (mkEnv 90040000 "0.4fzyo82mvyr" 90040001 90040002) "abc" None
    = Some (db', res)
    /\ allowed res = true.
Proof.
  destruct (daily_quota_gate
              (mkDb [] [mkActivity "abc" 90000000 999 1000000 "tok"])
              (mkEnv 90040000 "0.4fzyo82mvyr" 90040001 90040002) "abc" None
              (mkActivity "abc" 90000000 999 1000000 "tok"))
    as [db' [res [C [_ [_ [Late _]]]]]].
  - reflexivity.
  - simpl. lia.
  - exists db', res. split; [exact C|]. apply Late. simpl. lia.
Defined.

(** Fifty accepted checks inside the first day: the next one is denied
    for quota. *)
Example quota_denies_51st :
  checkRateLimit
    (mkDb [] [mkActivity "abc" 3000000 50 1000000 "tok"])
    (mkEnv 3040000 "0.4fzyo82mvyr" 3040001 3040002) "abc" None
  = Some (mkDb [] [mkActivity "abc" 3000000 50 1000000 "tok"],
          mkRate false (Some quotaReason)).
Proof. reflexivity. Qed.

(** Fifteen players: ten rows come back, best first. *)
Example top_ten_of_fifteen :
  map score
    (getTopScores
       (mkDb (map (fun s => mkEntry "p" s 0)
                  [3; 14; 1; 15; 9; 2; 6; 5; 35; 8; 97; 93; 23; 84; 62]) []))
  = [97; 93; 84; 62; 35; 23; 15; 14; 9; 8].
Proof. reflexivity. Qed.

(** The example of the specification: 10 is stored, 5 is refused, 15
    replaces 10. *)
Example abc_10_5_15 :
  storedScore boardAbc "abc" = Some 10
  /\ validateScoreProgression boardAbc "abc" 5
     = mkProg false (Some "Devi superare il tuo record di 10 punti")
  /\ option_map (fun p => leaderboard (fst p))
       (submitScore boardAbc (mkEnv 1040100 "0.4fzyo82mvyr" 1040101 1040102)
                    (bodyOf "abc" 15 None))
     = Some [mkEntry "abc" 15 1040102].
Proof. repeat split. Qed.

(** * Further properties of the service *)

(** ** The two format gates *)

Section Gates.

Lemma isValidScore_int n :
  isValidScore n = true -> exists z, isInt n z /\ 0 < z <= MAX_SCORE.
Proof.
  unfold isValidScore. rewrite !andb_true_iff. intros [[G L] I].
  apply isInteger_iff in I as [z I]. exists z. split; [assumption|].
  rewrite (gt_zero_int _ _ I) in G. rewrite (le_int_int _ _ _ I) in L.
  apply Z.ltb_lt in G. apply Z.leb_le in L. lia.
Qed.

Lemma int_isValidScore n z :
  isInt n z -> 0 < z <= MAX_SCORE -> isValidScore n = true.
Proof.
  intros I [G L]. unfold isValidScore.
  rewrite (gt_zero_int _ _ I), (le_int_int _ _ _ I).
  assert (Js.isInteger n = true) as -> by (apply isInteger_iff; eauto).
  apply Z.ltb_lt in G. apply Z.leb_le in L. now rewrite G, L.
Qed.

Lemma nameRejected_false_iff v :
  nameRejected v = false <->
  exists s, v = Js.JString s /\ isValidName (Js.trim s) = true.
Proof.
  unfold nameRejected. split.
  - rewrite orb_false_iff. intros [_ H]. destruct v; try discriminate.
    eexists. split; [reflexivity | now apply negb_false_iff].
  - intros [s [-> V]]. rewrite V. simpl.
    destruct s; [discriminate V | reflexivity].
Qed.

Lemma scoreRejected_false_iff v :
  scoreRejected v = false <->
  exists n z, v = Js.JNumber n /\ isInt n z /\ 0 < z <= MAX_SCORE.
Proof.
  unfold scoreRejected. split.
  - rewrite orb_false_iff. intros [_ H]. destruct v; try discriminate.
    apply negb_false_iff in H. apply isValidScore_int in H as [z H].
    eauto.
  - intros [n [z [-> [I B]]]]. rewrite (int_isValidScore _ _ I B).
    rewrite orb_false_r. destruct n as [[a b]| | |]; simpl in *; try tauto.
    unfold Qeq in I; simpl in I.
    destruct (Z.eqb_spec a 0); [nia | reflexivity].
Qed.

Lemma scoreRejected_range v :
  scoreRejected v = false -> 0 < Js.to_Z (asNumber v) <= MAX_SCORE.
Proof.
  intros H. apply scoreRejected_false_iff in H as [n [z [-> [I B]]]].
  simpl. now rewrite (to_Z_int _ _ I).
Qed.

Lemma recordReason_not_format best :
  recordReason best <> nameError /\ recordReason best <> scoreError
  /\ recordReason best <> cooldownReason /\ recordReason best <> quotaReason.
Proof. unfold recordReason. simpl. repeat split; discriminate. Qed.

End Gates.

(** X1: the answer is the 400 name error, with the store untouched,
    exactly when [name] is not a string that trims to a valid name (a
    number, null, a missing field, an object, the empty string ...);
    failing that, it is the 400 score error exactly when [score] is not a
    number that is an integer from 1 to 3600 (a numeric string is
    refused). *)
Theorem format_gates (db : Database) (env : Env) (body : SubmitBody) :
  (submitScore db env body = Some (db, Rejected 400 nameError) <->
   ~ exists s, bodyName body = Js.JString s /\ isValidName (Js.trim s) = true)
  /\ ((exists s, bodyName body = Js.JString s
                 /\ isValidName (Js.trim s) = true) ->
      (submitScore db env body = Some (db, Rejected 400 scoreError) <->
       ~ exists n z, bodyScore body = Js.JNumber n /\ isInt n z
                     /\ 0 < z <= MAX_SCORE)).
Proof.
  pose proof (nameRejected_false_iff (bodyName body)) as Hn.
  pose proof (scoreRejected_false_iff (bodyScore body)) as Hs.
  destruct (submitScore_cases db env body) as [db' [resp [E C]]].
  split; [|intros Hv; apply Hn in Hv]; rewrite E.
  - destruct C as
      [ Cn | Cn Cs | res why Cn Cs Cc Ca Cr Cw
      | db1 res e Cn Cs Cc Ca Cl Ce Cp
      | db1 res e Cn Cs Cc Ca Cl Ce Cp
      | db1 res Cn Cs Cc Ca Cl Ce ].
    + split; [|reflexivity]. intros _ H. apply Hn in H. congruence.
    + split; [discriminate|]. intros H. exfalso. apply H, Hn, Cn.
    + split; [|intros H; exfalso; apply H, Hn, Cn]. intros H. discriminate H.
    + split; [|intros H; exfalso; apply H, Hn, Cn]. intros H.
      assert (K : recordReason (score e) = nameError) by congruence.
      now apply recordReason_not_format in K.
    + split; [|intros H; exfalso; apply H, Hn, Cn]. intros H. discriminate H.
    + split; [|intros H; exfalso; apply H, Hn, Cn]. intros H. discriminate H.
  - destruct C as
      [ Cn | Cn Cs | res why Cn Cs Cc Ca Cr Cw
      | db1 res e Cn Cs Cc Ca Cl Ce Cp
      | db1 res e Cn Cs Cc Ca Cl Ce Cp
      | db1 res Cn Cs Cc Ca Cl Ce ]; try congruence.
    + split; [|reflexivity]. intros _ H. apply Hs in H. congruence.
    + split; [|intros H; exfalso; apply H, Hs, Cs]. intros H. discriminate H.
    + split; [|intros H; exfalso; apply H, Hs, Cs]. intros H.
      assert (K : recordReason (score e) = scoreError) by congruence.
      now apply recordReason_not_format in K.
    + split; [|intros H; exfalso; apply H, Hs, Cs]. intros H. discriminate H.
    + split; [|intros H; exfalso; apply H, Hs, Cs]. intros H. discriminate H.
Qed.

Lemma format_gates_witness :
  submitScore boardAbc (mkEnv 1040100 "0.4fzyo82mvyr" 1040101 1040102)
              (mkBody (Js.JString " Zed ") (Js.JString "100") None)
  = Some (boardAbc, Rejected 400 scoreError).
Proof.
  apply (proj2 (format_gates boardAbc
                  (mkEnv 1040100 "0.4fzyo82mvyr" 1040101 1040102)
                  (mkBody (Js.JString " Zed ") (Js.JString "100") None))).
  - exists " Zed ". split; reflexivity.
  - intros [n [z [H _]]]. discriminate H.
Defined.

(** ** One submission *)

Section OneSubmission.

Lemma checkRateLimit_allowed_row db env p sid db1 res :
  checkRateLimit db env p sid = Some (db1, res) ->
  allowed res = true ->
  exists a,
    Sql.selectActivity (Js.toLowerCase p) (player_activity db1) = Some a
    /\ lastSubmission a = rateNow env.
Proof.
  unfold checkRateLimit. cbv zeta. intros C A.
  destruct (Sql.selectActivity _ (player_activity db)) as [a|] eqn:S.
  - destruct (_ <? 30000); [injection C as _ <-; discriminate A|].
    destruct (_ && _); injection C as <- <-; [discriminate A|]. simpl.
    exists (touched (rateNow env) a).
    split; [now apply selectActivity_touch_same | reflexivity].
  - rewrite insertActivity_fresh in C by exact S. injection C as <- _.
    simpl. eexists. split.
    + unfold Sql.selectActivity. apply find_app_last; [exact S|].
      simpl. apply String.eqb_refl.
    + reflexivity.
Qed.


Lemma checkRateLimit_cooldown db env p sid a :
  Sql.selectActivity (Js.toLowerCase p) (player_activity db) = Some a ->
  rateNow env - lastSubmission a < 30000 ->
  checkRateLimit db env p sid = Some (db, mkRate false (Some cooldownReason)).
Proof.
  intros S C. unfold checkRateLimit. cbv zeta. rewrite S.
  apply Z.ltb_lt in C. now rewrite C.
Qed.

Lemma selectEntry_update_same s ts key t e :
  Sql.selectEntry key t = Some e ->
  Sql.selectEntry key (Sql.updateEntry s ts key t) = Some (mkEntry key s ts).
Proof.
  intros S. rewrite selectEntry_update, S. simpl.
  pose proof (selectEntry_key _ _ _ S) as K. rewrite K.
  now rewrite String.eqb_refl.
Qed.


Lemma selectEntry_insert_same key s ts t :
  Sql.selectEntry key t = None ->
  Sql.selectEntry key (t ++ [mkEntry key s ts])%list = Some (mkEntry key s ts).
Proof.
  intros S. unfold Sql.selectEntry. apply find_app_last; [exact S|].
  simpl. apply String.eqb_refl.
Qed.


(** What an accepted submission leaves on the board for its own key. *)
Lemma accepted_entry db env body db' msg :
  SubmitCase db env body db' (Accepted msg) ->
  Sql.selectEntry (submittedKey body) (leaderboard db')
  = Some (mkEntry (submittedKey body) (submittedScore body) (stampNow env)).
Proof.
  intros C. inversion C as
      [ | | | | db1 res e Cn Cs Cc Ca Cl Ce Cp
            | db1 res Cn Cs Cc Ca Cl Ce ]; subst; simpl.
  - eapply selectEntry_update_same; eauto.
  - now apply selectEntry_insert_same.
Qed.

Lemma known_rank_range db nm e :
  Sql.selectEntry (Js.toLowerCase nm) (leaderboard db) = Some e ->
  exists k,
    getRank db nm = mkRank (Some k) (Z.of_nat (List.length (leaderboard db)))
    /\ 1 <= k <= Z.of_nat (List.length (leaderboard db)).
Proof.
  intros S. destruct (rank_of_known_player db nm e S) as [i [r [G [Nth _]]]].
  exists (1 + Z.of_nat i). split; [exact G|].
  assert (i < List.length (Sql.orderByScoreDesc (leaderboard db)))%nat
    by (apply nth_error_Some; congruence).
  rewrite orderByScoreDesc_length in *. lia.
Qed.

End OneSubmission.

(** X2: after an accepted submission the board holds, for the
    lower-cased trimmed name, exactly the submitted score with the
    handler's timestamp; the score is an integer from 1 to 3600; and a
    rank lookup of the trimmed name finds the player, with a rank between
    1 and the number of players. *)
Theorem accepted_submission_stored db env body db' msg :
  submitScore db env body = Some (db', Accepted msg) ->
  Sql.selectEntry (submittedKey body) (leaderboard db')
  = Some (mkEntry (submittedKey body) (submittedScore body) (stampNow env))
  /\ 0 < submittedScore body <= MAX_SCORE
  /\ exists k,
       getRank db' (Js.trim (asString (bodyName body)))
       = mkRank (Some k) (Z.of_nat (List.length (leaderboard db')))
       /\ 1 <= k <= Z.of_nat (List.length (leaderboard db')).
Proof.
  intros E. apply submitScore_inv in E.
  pose proof (accepted_entry _ _ _ _ _ E) as S.
  split; [exact S|]. split.
  - apply scoreRejected_range.
    inversion E; assumption.
  - eapply known_rank_range. exact S.
Qed.

Lemma accepted_submission_stored_witness :
  Sql.selectEntry "zed"
    (leaderboard
       (mkDb [mkEntry "abc" 10 1000002; mkEntry "zed" 7 1040102]
             [mkActivity "abc" 1000000 1 1000000 "tok";
              mkActivity "zed" 1040100 1 1040100 "mine"]))
  = Some (mkEntry "zed" 7 1040102).
Proof.
  exact (proj1 (accepted_submission_stored boardAbc
                  (mkEnv 1040100 "0.4fzyo82mvyr" 1040101 1040102)
                  (bodyOf " Zed " 7 (Some "mine")) _ savedMessage eq_refl)).
Defined.



(** ** Two submissions in a row *)

Section TwoSubmissions.

(** A submission that got past the rate limiter: accepted, or refused for
    progression. *)
Lemma passed_limiter_row db env body db' resp :
  SubmitCase db env body db' resp ->
  (exists msg, resp = Accepted msg)
  \/ (exists best, resp = Rejected 400 (recordReason best)) ->
  exists a,
    Sql.selectActivity (submittedKey body) (player_activity db') = Some a
    /\ lastSubmission a = rateNow env.
Proof.
  intros C P.
  destruct C as
      [ Cn | Cn Cs | res why Cn Cs Cc Ca Cr Cw
      | db1 res e Cn Cs Cc Ca Cl Ce Cp
      | db1 res e Cn Cs Cc Ca Cl Ce Cp
      | db1 res Cn Cs Cc Ca Cl Ce ]; simpl;
    try (eapply checkRateLimit_allowed_row; eauto; fail);
    exfalso; destruct P as [[msg P]|[best P]]; discriminate P.
Qed.

End TwoSubmissions.

(** X4: once a submission has got past the rate limiter (it was accepted,
    or refused only because the score was no record), any well-formed
    submission for the same player whose clock reading is less than
    30000 ms later is answered 429 with the cooldown message and changes
    nothing. *)
Theorem resubmission_within_cooldown db env1 b1 db1 resp1 env2 b2 :
  submitScore db env1 b1 = Some (db1, resp1) ->
  (exists msg, resp1 = Accepted msg)
  \/ (exists best, resp1 = Rejected 400 (recordReason best)) ->
  nameRejected (bodyName b2) = false ->
  scoreRejected (bodyScore b2) = false ->
  submittedKey b2 = submittedKey b1 ->
  rateNow env2 - rateNow env1 < 30000 ->
  submitScore db1 env2 b2 = Some (db1, Rejected 429 cooldownReason).
Proof.
  intros E P Hn Hs Hk Ht. apply submitScore_inv in E.
  destruct (passed_limiter_row _ _ _ _ _ E P) as [a [S L]].
  unfold submitScore. rewrite Hn, Hs. cbv zeta.
  rewrite (checkRateLimit_cooldown db1 env2 _ (bodySessionId b2) a).
  - reflexivity.
  - fold (submittedKey b2). now rewrite Hk.
  - lia.
Qed.

Lemma resubmission_within_cooldown_witness :
  submitScore boardAbc (mkEnv 1029999 "0.4fzyo82mvyr" 1030000 1030001)
              (bodyOf "ABC" 99 None)
  = Some (boardAbc, Rejected 429 cooldownReason).
Proof.
  apply (resubmission_within_cooldown emptyDb
           (mkEnv 1000000 "0.4fzyo82mvyr" 1000001 1000002)
           (bodyOf " Abc " 10 (Some "tok")) boardAbc (Accepted savedMessage)).
  - reflexivity.
  - left. exists savedMessage. reflexivity.
  - reflexivity.
  - reflexivity.
  - reflexivity.
  - simpl. lia.
Defined.

(** X5: after an accepted submission, a later one for the same player
    with the same or a lower score is never accepted and never changes the
    board, whenever it comes; if the rate limiter lets it through, the
    answer is the 400 that names the accepted score as the record to
    beat. *)
Theorem lower_score_never_accepted db env1 b1 db1 msg env2 b2 :
  submitScore db env1 b1 = Some (db1, Accepted msg) ->
  submittedKey b2 = submittedKey b1 ->
  submittedScore b2 <= submittedScore b1 ->
  exists db2 st err,
    submitScore db1 env2 b2 = Some (db2, Rejected st err)
    /\ leaderboard db2 = leaderboard db1
    /\ (st = 429
        \/ err = nameError \/ err = scoreError
        \/ err = recordReason (submittedScore b1)).
Proof.
  intros E Hk Hle. apply submitScore_inv in E.
  pose proof (accepted_entry _ _ _ _ _ E) as S. rewrite <- Hk in S.
  destruct (submitScore_cases db1 env2 b2) as [db2 [resp [E2 C]]].
  rewrite E2.
  destruct C as
      [ Cn | Cn Cs | res why Cn Cs Cc Ca Cr Cw
      | d res e Cn Cs Cc Ca Cl Ce Cp
      | d res e Cn Cs Cc Ca Cl Ce Cp
      | d res Cn Cs Cc Ca Cl Ce ].
  - eexists _, _, _. split; [reflexivity|]. auto.
  - eexists _, _, _. split; [reflexivity|]. auto.
  - eexists _, _, _. split; [reflexivity|]. auto.
  - eexists _, _, _. split; [reflexivity|]. split; [exact Cl|].
    right. right. right. rewrite S in Ce. injection Ce as <-. reflexivity.
  - exfalso. rewrite S in Ce. injection Ce as <-. simpl in Cp. lia.
  - exfalso. congruence.
Qed.

Lemma lower_score_never_accepted_witness :
  exists db2 st err,
    submitScore boardAbc (mkEnv 1040100 "0.4fzyo82mvyr" 1040101 1040102)
                (bodyOf "abc" 10 None)
    = Some (db2, Rejected st err)
    /\ leaderboard db2 = leaderboard boardAbc.
Proof.
  destruct (lower_score_never_accepted emptyDb
              (mkEnv 1000000 "0.4fzyo82mvyr" 1000001 1000002)
              (bodyOf " Abc " 10 (Some "tok")) boardAbc savedMessage
              (mkEnv 1040100 "0.4fzyo82mvyr" 1040101 1040102)
              (bodyOf "abc" 10 None))
    as [db2 [st [err [E [L _]]]]].
  - reflexivity.
  - reflexivity.
  - apply Z.leb_le. reflexivity.
  - exists db2, st, err. split; assumption.
Defined.

(** ** What every reachable store satisfies *)

Section Invariants.

Lemma lowerChar_name c :
  isNameChar c = true ->
  isNameChar (Js.lowerChar c) = true /\ Js.lowerChar (Js.lowerChar c) = Js.lowerChar c.
Proof.
  destruct c as [[] [] [] [] [] [] [] []]; vm_compute; intros H;
    try discriminate H; split; reflexivity.
Qed.

Lemma toLowerCase_length s :
  String.length (Js.toLowerCase s) = String.length s.
Proof. induction s as [|c s IH]; simpl; congruence. Qed.

Lemma toLowerCase_name s :
  allNameChars s = true ->
  allNameChars (Js.toLowerCase s) = true
  /\ Js.toLowerCase (Js.toLowerCase s) = Js.toLowerCase s.
Proof.
  induction s as [|c s IH]; simpl; [auto|].
  rewrite andb_true_iff. intros [C A].
  destruct (lowerChar_name c C) as [C1 C2]. destruct (IH A) as [A1 A2].
  now rewrite C1, C2, A1, A2.
Qed.

Lemma lowerName_key p :
  isValidName p = true -> lowerName (Js.toLowerCase p).
Proof.
  unfold lowerName, isValidName. rewrite !andb_true_iff.
  intros [[L1 L2] A]. destruct (toLowerCase_name p A) as [A1 A2].
  rewrite toLowerCase_length. auto.
Qed.

Lemma digits36_nonempty fuel n acc :
  acc <> ""%string -> Js.digits36 fuel n acc <> ""%string.
Proof.
  revert n acc. induction fuel as [|f IH]; simpl; intros n acc H; [exact H|].
  destruct (n / 36 =? 0); [discriminate|]. apply IH. discriminate.
Qed.

Lemma toString36_nonempty n : Js.toString36 n <> ""%string.
Proof.
  unfold Js.toString36. destruct (n <? 0); [discriminate|].
  simpl. destruct (_ =? 0); [discriminate|].
  apply digits36_nonempty. discriminate.
Qed.

Lemma append_nonempty_r a b : b <> ""%string -> (a ++ b)%string <> ""%string.
Proof. destruct a; simpl; [auto | discriminate]. Qed.

Lemma generateSessionId_nonempty env : generateSessionId env <> ""%string.
Proof. apply append_nonempty_r, toString36_nonempty. Qed.

Lemma or_else_nonempty sid fallback :
  fallback <> ""%string -> Js.or_else sid fallback <> ""%string.
Proof.
  intros F. destruct sid as [s|]; simpl; [|exact F].
  destruct (String.eqb_spec s ""); assumption.
Qed.

Lemma selectActivity_unique key t a r :
  NoDup (map playerKey t) ->
  Sql.selectActivity key t = Some a ->
  In r t -> playerKey r = key -> r = a.
Proof.
  unfold Sql.selectActivity.
  induction t as [|x t IH]; simpl; intros U S I K; [tauto|].
  inversion U as [|? ? Hx U']; subst.
  destruct (String.eqb_spec (playerKey x) (playerKey r)) as [E|E].
  - injection S as <-. destruct I as [->|I]; [reflexivity|].
    exfalso. apply Hx. rewrite E. now apply in_map.
  - destruct I as [->|I]; [congruence|]. auto.
Qed.

Lemma touchActivity_keys now key t :
  map playerKey (Sql.touchActivity now key t) = map playerKey t.
Proof.
  unfold Sql.touchActivity. rewrite map_map. apply map_ext.
  intros r. now destruct (playerKey r =? key)%string.
Qed.

Lemma selectActivity_none_in key t :
  Sql.selectActivity key t = None -> ~ In key (map playerKey t).
Proof.
  unfold Sql.selectActivity. intros H I.
  apply in_map_iff in I as [r [E I]].
  pose proof (find_none _ _ H r I) as F. simpl in F.
  apply String.eqb_neq in F. contradiction.
Qed.

(** The rate limiter keeps the activity table well-formed. *)
Lemma checkRateLimit_inv db env p sid db1 res :
  checkRateLimit db env p sid = Some (db1, res) ->
  isValidName p = true ->
  activityInv (player_activity db) ->
  activityInv (player_activity db1).
Proof.
  unfold checkRateLimit, activityInv. cbv zeta. intros C V [U F].
  destruct (Sql.selectActivity _ (player_activity db)) as [a|] eqn:S.
  - destruct (Z.ltb_spec (rateNow env - lastSubmission a) 30000) as [_|Cool];
      [injection C as <- _; auto|].
    rewrite days_lt_one in C.
    destruct (Z.ltb_spec (rateNow env - firstSeen a) 86400000) as [D|D];
      destruct (Z.leb_spec 50 (submissionCount a)) as [Q|Q];
      simpl in C; injection C as <- _; auto; simpl;
      (split; [now rewrite touchActivity_keys|]);
      unfold Sql.touchActivity; apply Forall_map;
      apply Forall_forall; intros r I;
      pose proof (proj1 (Forall_forall _ _) F r I) as G;
      (destruct (String.eqb_spec (playerKey r) (Js.toLowerCase p)) as [E|E];
       [|exact G]);
      assert (r = a) by (eapply selectActivity_unique; eauto); subst r;
      destruct G as [N [P [W T]]];
      (split; [exact N|]); (split; [|split; [|exact T]]);
      unfold paced, withinQuota in *;
      cbn [lastSubmission submissionCount firstSeen]; lia.
  - rewrite insertActivity_fresh in C by exact S. injection C as <- _. simpl.
    split.
    + rewrite map_app. simpl.
      apply NoDup_app; [assumption | repeat constructor; simpl; tauto |].
      intros k I [<-|[]]. now apply (selectActivity_none_in _ _ S).
    + apply Forall_app. split; [assumption|]. constructor; [|constructor].
      simpl. split; [now apply lowerName_key|].
      split; [unfold paced; cbn [lastSubmission submissionCount firstSeen]; lia|].
      split; [unfold withinQuota; cbn [submissionCount]; lia|].
      apply or_else_nonempty, generateSessionId_nonempty.
Qed.

(** A well-formed store: board rows, activity rows, and an activity row
    behind every board row. *)
Lemma submit_keeps_store db env body db' resp :
  SubmitCase db env body db' resp ->
  Forall (fun e => lowerName (name e) /\ 0 < score e <= MAX_SCORE)
         (leaderboard db)
  /\ activityInv (player_activity db)
  /\ Forall (fun e => In (name e) (map playerKey (player_activity db)))
            (leaderboard db) ->
  Forall (fun e => lowerName (name e) /\ 0 < score e <= MAX_SCORE)
         (leaderboard db')
  /\ activityInv (player_activity db')
  /\ Forall (fun e => In (name e) (map playerKey (player_activity db')))
            (leaderboard db').
Proof.
  intros C [B [A H]].
  assert (Keys : forall db1 res,
             checkRateLimit db env (Js.trim (asString (bodyName body)))
                            (bodySessionId body) = Some (db1, res) ->
             forall k, In k (map playerKey (player_activity db)) ->
                       In k (map playerKey (player_activity db1))).
  { intros db1 res Cc k I. apply in_map_iff in I as [r [<- I]].
    destruct (Sql.selectActivity (playerKey r) (player_activity db))
      as [a|] eqn:S.
    - destruct (checkRateLimit_keeps_session _ _ _ _ _ _ _ _ Cc S)
        as [a' [S' _]].
      rewrite <- (selectActivity_key _ _ _ S').
      apply in_map. unfold Sql.selectActivity in S'.
      now apply find_some in S' as [I' _].
    - exfalso. apply (selectActivity_none_in _ _ S). now apply in_map. }
  assert (Own : forall db1 res,
             checkRateLimit db env (Js.trim (asString (bodyName body)))
                            (bodySessionId body) = Some (db1, res) ->
             allowed res = true ->
             In (submittedKey body) (map playerKey (player_activity db1))).
  { intros db1 res Cc Ca.
    destruct (checkRateLimit_allowed_row _ _ _ _ _ _ Cc Ca) as [a [S _]].
    unfold submittedKey. rewrite <- (selectActivity_key _ _ _ S). apply in_map.
    unfold Sql.selectActivity in S. now apply find_some in S as [I _]. }
  destruct C as
      [ Cn | Cn Cs | res why Cn Cs Cc Ca Cr Cw
      | db1 res e Cn Cs Cc Ca Cl Ce Cp
      | db1 res e Cn Cs Cc Ca Cl Ce Cp
      | db1 res Cn Cs Cc Ca Cl Ce ]; auto;
    pose proof (nameRejected_false _ Cn) as V;
    pose proof (checkRateLimit_inv _ _ _ _ _ _ Cc V A) as A1;
    pose proof (scoreRejected_range _ Cs) as R; simpl.
  - rewrite Cl. split; [exact B|]. split; [exact A1|].
    eapply Forall_impl; [|exact H]. intros r. apply (Keys _ _ Cc).
  - split; [|split; [exact A1|]]; unfold Sql.updateEntry; apply Forall_map;
      apply Forall_forall; intros r I.
    + pose proof (proj1 (Forall_forall _ _) B r I) as [N S].
      destruct (name r =? submittedKey body)%string; simpl; auto.
    + pose proof (proj1 (Forall_forall _ _) H r I) as K.
      apply (Keys _ _ Cc) in K.
      destruct (name r =? submittedKey body)%string; simpl; auto.
  - split; [|split; [exact A1|]]; apply Forall_app; split.
    + assumption.
    + constructor; [|constructor]. simpl.
      split; [now apply lowerName_key | exact R].
    + eapply Forall_impl; [|exact H]. intros r. apply (Keys _ _ Cc).
    + constructor; [|constructor]. simpl. now apply (Own _ _ Cc).
Qed.

Lemma reachable_store db :
  reachable db ->
  Forall (fun e => lowerName (name e) /\ 0 < score e <= MAX_SCORE)
         (leaderboard db)
  /\ activityInv (player_activity db)
  /\ Forall (fun e => In (name e) (map playerKey (player_activity db)))
            (leaderboard db).
Proof.
  induction 1 as [|db env body db' resp R IH S].
  - simpl. repeat split; constructor.
  - apply submitScore_inv in S. eapply submit_keeps_store; eauto.
Qed.

End Invariants.

(** X6: every row of the board of a reachable store carries a valid name
    in lower case and an integer score from 1 to 3600. *)
Theorem board_rows_well_formed (db : Database) :
  reachable db ->
  forall e, In e (leaderboard db) ->
    isValidName (name e) = true /\ Js.toLowerCase (name e) = name e
    /\ 0 < score e <= MAX_SCORE.
Proof.
  intros R e I. destruct (reachable_store db R) as [B _].
  destruct (proj1 (Forall_forall _ _) B e I) as [[V L] S]. auto.
Qed.

Lemma board_rows_well_formed_witness :
  isValidName "abc" = true /\ Js.toLowerCase "abc" = "abc"
  /\ 0 < 10 <= MAX_SCORE.
Proof.
  apply (board_rows_well_formed boardAbc boardAbc_reachable
           (mkEntry "abc" 10 1000002)).
  left. reflexivity.
Defined.



(** X8: in a reachable store every activity row has a count of at least
    1 and its last submission lies at least 30000 ms times (count - 1)
    after its first contact; in particular the last submission is never
    before the first contact, whatever the clock did. *)
Theorem activity_count_paid_by_cooldowns (db : Database) :
  reachable db ->
  forall a, In a (player_activity db) ->
    1 <= submissionCount a
    /\ 30000 * (submissionCount a - 1) <= lastSubmission a - firstSeen a
    /\ firstSeen a <= lastSubmission a.
Proof.
  intros R a I. destruct (reachable_store db R) as [_ [[_ F] _]].
  destruct (proj1 (Forall_forall _ _) F a I) as [_ [[P1 P2] _]].
  repeat split; lia.
Qed.

Lemma activity_count_paid_by_cooldowns_witness :
  1 <= 1 /\ 30000 * (1 - 1) <= 1000000 - 1000000 /\ 1000000 <= 1000000.
Proof.
  apply (activity_count_paid_by_cooldowns boardAbc boardAbc_reachable
           (mkActivity "abc" 1000000 1 1000000 "tok")).
  left. reflexivity.
Defined.

(** X9: in a reachable store an activity row counts more than 50 checks
    only if its last one came 24 hours or more after first contact: inside
    the first day a player gets at most 50 checks through. *)
Theorem quota_holds_in_first_day (db : Database) :
  reachable db ->
  forall a, In a (player_activity db) ->
    lastSubmission a - firstSeen a < 86400000 -> submissionCount a <= 50.
Proof.
  intros R a I D. destruct (reachable_store db R) as [_ [[_ F] _]].
  destruct (proj1 (Forall_forall _ _) F a I) as [_ [_ [[W|W] _]]]; lia.
Qed.

Lemma quota_holds_in_first_day_witness : 1 <= 50.
Proof.
  apply (quota_holds_in_first_day boardAbc boardAbc_reachable
           (mkActivity "abc" 1000000 1 1000000 "tok")).
  - left. reflexivity.
  - simpl. lia.
Defined.

Section BoardAndActivity.

Lemma checkRateLimit_keys db env p sid db1 res :
  checkRateLimit db env p sid = Some (db1, res) ->
  map playerKey (player_activity db1) = map playerKey (player_activity db)
  \/ (Sql.selectActivity (Js.toLowerCase p) (player_activity db) = None
      /\ map playerKey (player_activity db1)
         = (map playerKey (player_activity db) ++ [Js.toLowerCase p])%list).
Proof.
  unfold checkRateLimit. cbv zeta. intros C.
  destruct (Sql.selectActivity _ (player_activity db)) as [a|] eqn:S.
  - left. destruct (_ <? 30000); [now injection C as <- _|].
    destruct (_ && _); injection C as <- _; [reflexivity|].
    apply touchActivity_keys.
  - right. rewrite insertActivity_fresh in C by exact S. injection C as <- _.
    split; [reflexivity|]. simpl. now rewrite map_app.
Qed.

Lemma reachable_activity_on_board db :
  reachable db ->
  forall k, In k (map playerKey (player_activity db)) ->
            In k (map name (leaderboard db)).
Proof.
  induction 1 as [|db env body db' resp R IH S]; [intros k []|].
  destruct (reachable_store db R) as [_ [_ H]].
  apply submitScore_inv in S.
  destruct S as
      [ Cn | Cn Cs | res why Cn Cs Cc Ca Cr Cw
      | db1 res e Cn Cs Cc Ca Cl Ce Cp
      | db1 res e Cn Cs Cc Ca Cl Ce Cp
      | db1 res Cn Cs Cc Ca Cl Ce ]; auto; simpl.
  - rewrite Cl. destruct (checkRateLimit_keys _ _ _ _ _ _ Cc) as [K|[N _]].
    + now rewrite K.
    + exfalso. apply (selectActivity_none_in _ _ N).
      fold (submittedKey body). rewrite <- (selectEntry_key _ _ _ Ce).
      apply (proj1 (Forall_forall _ _) H e).
      unfold Sql.selectEntry in Ce. now apply find_some in Ce as [I _].
  - rewrite updateEntry_names.
    destruct (checkRateLimit_keys _ _ _ _ _ _ Cc) as [K|[N _]].
    + now rewrite K.
    + exfalso. apply (selectActivity_none_in _ _ N).
      fold (submittedKey body). rewrite <- (selectEntry_key _ _ _ Ce).
      apply (proj1 (Forall_forall _ _) H e).
      unfold Sql.selectEntry in Ce. now apply find_some in Ce as [I _].
  - rewrite map_app. simpl. intros k I. apply in_or_app.
    destruct (checkRateLimit_keys _ _ _ _ _ _ Cc) as [K|[_ K]];
      rewrite K in I.
    + left. auto.
    + apply in_app_or in I as [I|I]; [left; auto | right; exact I].
Qed.

End BoardAndActivity.

(** X10: in a reachable store the players on the board are exactly the
    players with an activity row: a first contact that gets as far as the
    rate limiter always ends with a row on the board. *)
Theorem board_and_activity_same_players (db : Database) :
  reachable db ->
  forall k, In k (map name (leaderboard db))
            <-> In k (map playerKey (player_activity db)).
Proof.
  intros R k. split.
  - intros I. apply in_map_iff in I as [e [<- I]].
    destruct (reachable_store db R) as [_ [_ H]].
    exact (proj1 (Forall_forall _ _) H e I).
  - now apply reachable_activity_on_board.
Qed.

Lemma board_and_activity_same_players_witness :
  In "abc" (map name (leaderboard boardAbc))
  <-> In "abc" (map playerKey (player_activity boardAbc)).
Proof.
  exact (board_and_activity_same_players boardAbc boardAbc_reachable "abc").
Defined.

(** ** Activity rows over time *)

Section ActivityHistory.

Lemma checkRateLimit_row_grows db env p sid db1 res key a :
  checkRateLimit db env p sid = Some (db1, res) ->
  Sql.selectActivity key (player_activity db) = Some a ->
  exists a',
    Sql.selectActivity key (player_activity db1) = Some a'
    /\ sessionId a' = sessionId a /\ firstSeen a' = firstSeen a
    /\ submissionCount a <= submissionCount a'
    /\ lastSubmission a <= lastSubmission a'.
Proof.
  unfold checkRateLimit. cbv zeta. intros C S.
  destruct (Sql.selectActivity (Js.toLowerCase p) _) as [b|] eqn:Sb.
  - destruct (Z.ltb_spec (rateNow env - lastSubmission b) 30000) as [_|Cool].
    { injection C as <- _. exists a. repeat split; auto; lia. }
    destruct (_ && _); injection C as <- _.
    { exists a. repeat split; auto; lia. }
    simpl. rewrite selectActivity_touch, S. simpl.
    destruct (String.eqb_spec (playerKey a) (Js.toLowerCase p)) as [E|E].
    + assert (a = b).
      { rewrite <- E, (selectActivity_key _ _ _ S) in Sb. congruence. }
      subst b. eexists. split; [reflexivity|]. simpl. repeat split; lia.
    + exists a. repeat split; auto; lia.
  - rewrite insertActivity_fresh in C by exact Sb. injection C as <- _. simpl.
    unfold Sql.selectActivity in *. rewrite find_app, S.
    exists a. repeat split; auto; lia.
Qed.

Lemma submit_row_grows db env body db' resp key a :
  SubmitCase db env body db' resp ->
  Sql.selectActivity key (player_activity db) = Some a ->
  exists a',
    Sql.selectActivity key (player_activity db') = Some a'
    /\ sessionId a' = sessionId a /\ firstSeen a' = firstSeen a
    /\ submissionCount a <= submissionCount a'
    /\ lastSubmission a <= lastSubmission a'.
Proof.
  intros C S.
  destruct C as
      [ Cn | Cn Cs | res why Cn Cs Cc Ca Cr Cw
      | db1 res e Cn Cs Cc Ca Cl Ce Cp
      | db1 res e Cn Cs Cc Ca Cl Ce Cp
      | db1 res Cn Cs Cc Ca Cl Ce ]; simpl;
    try (eapply checkRateLimit_row_grows; eauto; fail);
    exists a; repeat split; auto; lia.
Qed.

End ActivityHistory.

(** X11: across any sequence of submissions an activity row is never
    deleted, its first contact and its session id never change, and its
    count and its last submission never go down. *)
Theorem activity_row_history (reqs : list (Env * SubmitBody)) :
  forall db key a,
    Sql.selectActivity key (player_activity db) = Some a ->
    exists db' a',
      submitAll db reqs = Some db'
      /\ Sql.selectActivity key (player_activity db') = Some a'
      /\ sessionId a' = sessionId a /\ firstSeen a' = firstSeen a
      /\ submissionCount a <= submissionCount a'
      /\ lastSubmission a <= lastSubmission a'.
Proof.
  induction reqs as [|[env body] reqs IH]; simpl; intros db key a S.
  - exists db, a. repeat split; auto; lia.
  - destruct (submitScore_cases db env body) as [db1 [resp [E C]]].
    rewrite E.
    destruct (submit_row_grows _ _ _ _ _ _ _ C S)
      as [a1 [S1 [I1 [F1 [N1 L1]]]]].
    destruct (IH db1 key a1 S1) as [db' [a' [A [S' [I' [F' [N' L']]]]]]].
    exists db', a'. repeat split; auto; try congruence; lia.
Qed.

Lemma activity_row_history_witness :
  exists db' a',
    submitAll boardAbc
      [(mkEnv 1040100 "0.4fzyo82mvyr" 1040101 1040102, bodyOf "abc" 5 None);
       (mkEnv 1080100 "0.4fzyo82mvyr" 1080101 1080102,
        bodyOf "ABC" 15 (Some "other"))] = Some db'
    /\ Sql.selectActivity "abc" (player_activity db') = Some a'
    /\ sessionId a' = "tok".
Proof.
  destruct (activity_row_history
              [(mkEnv 1040100 "0.4fzyo82mvyr" 1040101 1040102,
                bodyOf "abc" 5 None);
               (mkEnv 1080100 "0.4fzyo82mvyr" 1080101 1080102,
                bodyOf "ABC" 15 (Some "other"))]
              boardAbc "abc" (mkActivity "abc" 1000000 1 1000000 "tok"))
    as [db' [a' [A [S [I _]]]]].
  - reflexivity.
  - exists db', a'. auto.
Defined.

(** ** Rank and leaderboard *)

Section Ranking.

Lemma filter_length_perm {A} (f : A -> bool) l l' :
  Permutation l l' ->
  List.length (filter f l) = List.length (filter f l').
Proof.
  induction 1 as [|x l l' P IH|x y l|l l' l'' P1 IH1 P2 IH2]; simpl.
  - reflexivity.
  - destruct (f x); simpl; congruence.
  - destruct (f x), (f y); reflexivity.
  - congruence.
Qed.

Lemma sorted_position l : forall i r,
  StronglySorted scoreGe l ->
  nth_error l i = Some r ->
  (countAbove (score r) l <= i /\ i + 1 <= countAtLeast (score r) l)%nat.
Proof.
  unfold countAbove, countAtLeast.
  induction l as [|x l IH]; intros i r S N; [destruct i; discriminate N|].
  apply StronglySorted_inv in S as [S F]. destruct i as [|i]; simpl in N.
  - injection N as ->. simpl. rewrite Z.ltb_irrefl, Z.leb_refl. simpl.
    split; [|lia].
    assert (Z : filter (fun e => score r <? score e) l = []).
    { clear - F. induction l as [|y l IH]; [reflexivity|]. simpl.
      inversion F as [|? ? Hy F']; subst. unfold scoreGe in Hy.
      destruct (Z.ltb_spec (score r) (score y)); [lia | auto]. }
    rewrite Z. simpl. lia.
  - destruct (IH i r S N) as [L1 L2].
    assert (G : score r <= score x).
    { apply nth_error_In in N.
      exact (proj1 (Forall_forall _ _) F r N). }
    simpl. apply Z.leb_le in G. rewrite G. simpl.
    destruct (score r <? score x); simpl; lia.
Qed.

Lemma entry_unique t r e :
  NoDup (map name t) -> In r t -> In e t -> name r = name e -> r = e.
Proof.
  induction t as [|x t IH]; simpl; intros U Ir Ie E; [tauto|].
  inversion U as [|? ? Hx U']; subst.
  destruct Ir as [->|Ir], Ie as [->|Ie]; auto.
  - exfalso. apply Hx. rewrite E. now apply in_map.
  - exfalso. apply Hx. rewrite <- E. now apply in_map.
Qed.

Lemma selectEntry_in key t e : Sql.selectEntry key t = Some e -> In e t.
Proof. unfold Sql.selectEntry. intros H. now apply find_some in H as [I _]. Qed.

Lemma in_selectEntry t e :
  In e t -> exists e', Sql.selectEntry (name e) t = Some e'.
Proof.
  intros I. destruct (Sql.selectEntry (name e) t) as [e'|] eqn:S; [eauto|].
  exfalso. now apply (selectEntry_none_in _ _ S e I).
Qed.

Lemma rank_none_of_unknown db nm :
  Sql.selectEntry (Js.toLowerCase nm) (leaderboard db) = None ->
  rank (getRank db nm) = None.
Proof.
  intros N. unfold getRank, rankQuery.
  rewrite find_rowNumber_none; [reflexivity|].
  intros r I. apply (selectEntry_none_in _ _ N).
  now apply (Permutation_in _ (orderByScoreDesc_perm _)).
Qed.

End Ranking.

(** X12: on a board without duplicate names, the rank of a stored player
    lies strictly above the number of players with a higher score and at
    most at the number of players with at least the player's score: no
    one with a lower score is ranked before, no one with a higher score
    after. *)
Theorem rank_between_score_counts db nm e :
  NoDup (map name (leaderboard db)) ->
  Sql.selectEntry (Js.toLowerCase nm) (leaderboard db) = Some e ->
  exists k,
    getRank db nm = mkRank (Some k) (Z.of_nat (List.length (leaderboard db)))
    /\ Z.of_nat (countAbove (score e) (leaderboard db)) < k
    /\ k <= Z.of_nat (countAtLeast (score e) (leaderboard db)).
Proof.
  intros U S. destruct (rank_of_known_player db nm e S) as [i [r [G [N K]]]].
  exists (1 + Z.of_nat i). split; [exact G|].
  pose proof (orderByScoreDesc_perm (leaderboard db)) as P.
  assert (r = e).
  { apply (entry_unique (leaderboard db)); auto.
    - apply (Permutation_in _ P). now apply nth_error_In in N.
    - now apply selectEntry_in in S.
    - rewrite K. symmetry. now apply selectEntry_key in S. }
  subst r.
  destruct (sorted_position _ _ _ (orderByScoreDesc_sorted _) N) as [A B].
  unfold countAbove, countAtLeast in *.
  rewrite (filter_length_perm _ _ _ P) in A.
  rewrite (filter_length_perm _ _ _ P) in B. lia.
Qed.

Lemma rank_between_score_counts_witness :
  exists k,
    getRank (mkDb [mkEntry "abc" 10 0; mkEntry "def" 20 0; mkEntry "ghi" 10 0]
                  []) "GHI"
    = mkRank (Some k) 3
    /\ 1 < k /\ k <= 3.
Proof.
  apply (rank_between_score_counts
           (mkDb [mkEntry "abc" 10 0; mkEntry "def" 20 0; mkEntry "ghi" 10 0]
                 []) "GHI" (mkEntry "ghi" 10 0)).
  - simpl. repeat constructor; simpl; intuition discriminate.
  - reflexivity.
Defined.

(** X13: on a board without duplicate names, a player is listed by the
    leaderboard endpoint exactly when the rank endpoint gives that player
    a rank of 10 or better. *)
Theorem listed_iff_rank_at_most_ten db nm :
  NoDup (map name (leaderboard db)) ->
  (exists e, In e (getTopScores db) /\ name e = Js.toLowerCase nm)
  <-> (exists k, rank (getRank db nm) = Some k /\ k <= 10).
Proof.
  intros U. pose proof (orderByScoreDesc_perm (leaderboard db)) as P.
  unfold getTopScores. split.
  - intros [e [I K]].
    apply In_nth_error in I as [j Nj].
    rewrite nth_error_firstn in Nj.
    destruct (Nat.ltb_spec j 10) as [Lj|_]; [|discriminate Nj].
    assert (Ie : In e (leaderboard db)).
    { apply (Permutation_in _ P). now apply nth_error_In in Nj. }
    destruct (in_selectEntry _ _ Ie) as [e' S]. rewrite K in S.
    destruct (rank_of_known_player db nm e' S) as [i [r [G [Ni Kr]]]].
    exists (1 + Z.of_nat i). rewrite G. split; [reflexivity|].
    assert (i = j); [|lia].
    assert (Us : NoDup (map name (Sql.orderByScoreDesc (leaderboard db)))).
    { apply (Permutation_NoDup (l := map name (leaderboard db))); [|exact U].
      apply Permutation_map, Permutation_sym, P. }
    apply (proj1 (NoDup_nth_error _) Us).
    + rewrite length_map. apply nth_error_Some. congruence.
    + rewrite !nth_error_map, Ni, Nj. simpl. congruence.
  - intros [k [R L]].
    destruct (Sql.selectEntry (Js.toLowerCase nm) (leaderboard db))
      as [e|] eqn:S.
    + destruct (rank_of_known_player db nm e S) as [i [r [G [Ni Kr]]]].
      rewrite G in R. cbn [rank] in R.
      assert (k = 1 + Z.of_nat i) by congruence. subst k. clear R.
      exists r. split; [|exact Kr].
      apply (nth_error_In _ i). rewrite nth_error_firstn.
      destruct (Nat.ltb_spec i 10); [exact Ni | lia].
    + rewrite (rank_none_of_unknown _ _ S) in R. discriminate R.
Qed.

Lemma listed_iff_rank_at_most_ten_witness :
  (exists e, In e (getTopScores boardAbc) /\ name e = Js.toLowerCase "Abc")
  <-> (exists k, rank (getRank boardAbc "Abc") = Some k /\ k <= 10).
Proof.
  apply (listed_iff_rank_at_most_ten boardAbc "Abc").
  simpl. repeat constructor. simpl. tauto.
Defined.

(** ** The rate limiter over the selected row, and the Bun server *)

Section RowObjects.

Lemma lt_int_sub a b m :
  JsNum.lt_int (JsNum.sub (Js.Finite (inject_Z a)) (Js.Finite (inject_Z b))) m
  = (a - b <? m).
Proof.
  unfold JsNum.lt_int, JsNum.sub, Qlt_bool, Qle_bool, Qminus, Qplus, Qopp,
    inject_Z. simpl.
  destruct (Z.leb_spec (m * 1) ((a * 1 + - b * 1) * 1)),
           (Z.ltb_spec (a - b) m); try reflexivity; lia.
Qed.

Lemma lt_one_days a b :
  JsNum.lt_int
    (JsNum.divConst (JsNum.sub (Js.Finite (inject_Z a)) (Js.Finite (inject_Z b)))
                    (1000 * 60 * 60 * 24)) 1
  = (a - b <? 86400000).
Proof.
  unfold JsNum.lt_int, JsNum.divConst, JsNum.sub, Qlt_bool, Qle_bool, Qdiv,
    Qmult, Qinv, Qminus, Qplus, Qopp, inject_Z. simpl.
  destruct (Z.leb_spec 86400000 ((a * 1 + - b * 1) * 1 * 1)),
           (Z.ltb_spec (a - b) 86400000); try reflexivity; lia.
Qed.

Lemma ge_int_inject c m :
  JsNum.ge_int (Js.Finite (inject_Z c)) m = (m <=? c).
Proof.
  unfold JsNum.ge_int, Qle_bool, inject_Z. simpl.
  destruct (Z.leb_spec (m * 1) (c * 1)), (Z.leb_spec m c);
    try reflexivity; lia.
Qed.

(** The camel-case properties are not there on the Bun server's row. *)
Lemma selectedRow_misses a :
  RowObject.get (BunApi.selectedRow a) "lastSubmission" = Js.NaN
  /\ RowObject.get (BunApi.selectedRow a) "firstSeen" = Js.NaN
  /\ RowObject.get (BunApi.selectedRow a) "submissionCount" = Js.NaN.
Proof. repeat split. Qed.

End RowObjects.

(** X14: read over the row object the worker's SELECT returns (columns
    aliased to the camel-case names), the rate limiter is the function on
    table rows that the statements above are about. *)
Theorem aliased_select_is_checkRateLimit db env playerName sid :
  rateLimitOnRow aliasedRow db env playerName sid
  = checkRateLimit db env playerName sid.
Proof.
  unfold rateLimitOnRow, checkRateLimit. cbv zeta.
  destruct (Sql.selectActivity _ _) as [a|]; [|reflexivity].
  change (RowObject.get (aliasedRow a) "lastSubmission")
    with (Js.Finite (inject_Z (lastSubmission a))).
  change (RowObject.get (aliasedRow a) "firstSeen")
    with (Js.Finite (inject_Z (firstSeen a))).
  change (RowObject.get (aliasedRow a) "submissionCount")
    with (Js.Finite (inject_Z (submissionCount a))).
  now rewrite lt_int_sub, lt_one_days, ge_int_inject, days_lt_one.
Qed.

(** X15: the Bun server's rate limiter never denies.  Its SELECT returns
    the columns under their snake-case names, the code reads the
    camel-case ones, so both comparisons are made on NaN and are false:
    a known player is always allowed, and the row is updated each time. *)
Theorem bun_rate_limiter_never_denies db env playerName sid :
  exists db1,
    BunApi.checkRateLimit db env playerName sid
    = Some (db1, mkRate true None)
    /\ leaderboard db1 = leaderboard db
    /\ forall a,
         Sql.selectActivity (Js.toLowerCase playerName) (player_activity db)
         = Some a ->
         player_activity db1
         = Sql.touchActivity (rateNow env) (Js.toLowerCase playerName)
                             (player_activity db).
Proof.
  unfold BunApi.checkRateLimit, rateLimitOnRow. cbv zeta.
  destruct (Sql.selectActivity _ _) as [a|] eqn:S.
  - destruct (selectedRow_misses a) as [-> [-> ->]]. simpl.
    eexists. repeat split.
  - rewrite insertActivity_fresh by exact S.
    eexists. repeat split. intros a H. discriminate H.
Qed.

Section AdminListing.

Lemma placeRecent_perm x l : Permutation (BunApi.placeRecent x l) (x :: l).
Proof.
  induction l as [|y l IH]; simpl; [apply Permutation_refl|].
  destruct (lastSubmission x <? lastSubmission y); [|apply Permutation_refl].
  apply perm_trans with (y :: x :: l); [now apply perm_skip | apply perm_swap].
Qed.

Lemma placeRecent_sorted x l :
  StronglySorted recentGe l -> StronglySorted recentGe (BunApi.placeRecent x l).
Proof.
  induction l as [|y l IH]; simpl; intros S.
  - repeat constructor.
  - apply StronglySorted_inv in S as [S F].
    destruct (Z.ltb_spec (lastSubmission x) (lastSubmission y)) as [L|L].
    + constructor; [auto|].
      apply (Permutation_Forall (Permutation_sym (placeRecent_perm x l))).
      constructor; [unfold recentGe; lia | assumption].
    + constructor; [now constructor|].
      constructor; [exact L|].
      eapply Forall_impl; [|exact F]. unfold recentGe. intros; lia.
Qed.

Lemma recent_order t :
  Permutation (fold_right BunApi.placeRecent [] t) t
  /\ StronglySorted recentGe (fold_right BunApi.placeRecent [] t).
Proof.
  induction t as [|x t [P S]]; simpl; [split; constructor|]. split.
  - apply perm_trans with (x :: fold_right BunApi.placeRecent [] t);
      [apply placeRecent_perm | now apply perm_skip].
  - now apply placeRecent_sorted.
Qed.

End AdminListing.

(** X17: the admin listing of the Bun server shows every activity row
    once, key, counters and session id included, most recent submission
    first, each with the time elapsed since that submission. *)
Theorem admin_listing_complete_and_ordered (db : Database) (now : Z) :
  exists rows,
    Permutation rows (player_activity db)
    /\ StronglySorted recentGe rows
    /\ BunApi.adminActivity db now
       = map (fun a =>
                BunApi.mkView (playerKey a) (lastSubmission a)
                              (submissionCount a) (firstSeen a) (sessionId a)
                              (now - lastSubmission a)) rows
    /\ Forall (fun v => BunApi.lastSubmissionAgo v
                        = now - BunApi.viewLastSubmission v)
              (BunApi.adminActivity db now)
    /\ List.length (BunApi.adminActivity db now)
       = List.length (player_activity db).
Proof.
  destruct (recent_order (player_activity db)) as [P S].
  exists (fold_right BunApi.placeRecent [] (player_activity db)).
  split; [exact P|]. split; [exact S|]. split; [reflexivity|]. split.
  - unfold BunApi.adminActivity. apply Forall_map, Forall_forall.
    intros a _. reflexivity.
  - unfold BunApi.adminActivity. rewrite length_map.
    now apply Permutation_length.
Qed.
